(** * Order-book temporary-impact analysis: a shallow embedding

    This development embeds [order_book_analysis.cpp] and checks the
    statements of its specification against it.

    - C++ [int] values are integers of [Z].  Inside the execution walk every
      intermediate value stays between 0 and the order size (lemma
      [consume_bounds]), so no signed overflow can occur there.  Where an
      [int] can overflow, in the sums of [getTotalBidDepth] and
      [getTotalAskDepth], in the depth accumulators of [analyzeSymbol] and
      in the increment [order_size += 10] of the sweep, the 32-bit
      two's-complement wrap-around is written out ([int_wrap]).  The sweep
      with a wrapping counter need not end and is run with fuel
      ([size_loop_int]); [size_loop] is the same loop counting in [Z], and
      the two agree for [max_shares < 2147483640], where the counter never
      overflows (lemma [size_loop_int_in_range]).  Counters of the elements
      of a vector or of the lines of a file ([valid_snapshots],
      [rows_loaded], [files_loaded]) are kept in [Z].
    - C++ [double] values are kept abstract behind the class [Double], which
      lists the operations the program applies to them and the two facts
      about comparisons it relies on.  Two instances are given:
      [Double_binary64], IEEE 754 binary64 as computed by the kernel's
      primitive floats (what the compiled program does), and [Double_exact],
      exact rational arithmetic (what the formulas mean when rounding is
      ignored).  Statements that only depend on the shape of the computation
      are proved for every instance; statements that depend on the laws of
      arithmetic are proved for [Double_exact], and the concrete books show
      where binary64 departs from them.
    - [std::vector] is [list]; [push_back] appends at the end.
    - [std::stod] and [std::stoi] are parameters of the row parser.
    - Console output, the file system and the clock are not modelled. *)

From Stdlib Require Import ZArith QArith Qminmax List String Ascii Bool Lia Lqa Sorted.
From Stdlib Require Import Floats Uint63.
From Equations Require Import Equations.
Import ListNotations.

Set Warnings "-inexact-float".

Open Scope string_scope.
Open Scope list_scope.
Open Scope Z_scope.

(** ** The arithmetic of [double] *)

Declare Scope double_scope.
Delimit Scope double_scope with D.

Class Double (D : Type) : Type := {
  of_int : Z -> D;            (* static_cast<double>(n), and literals such as 2.0 *)
  dadd : D -> D -> D;
  dsub : D -> D -> D;
  dmul : D -> D -> D;
  ddiv : D -> D -> D;
  dltb : D -> D -> bool;      (* x < y *)
  dleb : D -> D -> bool;      (* x <= y *)
  (* The two facts about comparisons the program relies on: zero is not
     below itself, and the mean of two positive prices is a number, so that
     the tests [mid <= 0] and [mid > 0] are complementary on it. *)
  dleb_zero : dleb (of_int 0) (of_int 0) = true;
  dltb_zero : dltb (of_int 0) (of_int 0) = false;
  dmid_test : forall b a,
    dltb (of_int 0) b = true -> dltb (of_int 0) a = true ->
    dleb (ddiv (dadd b a) (of_int 2)) (of_int 0)
    = negb (dltb (of_int 0) (ddiv (dadd b a) (of_int 2)))
}.

Infix "+" := dadd : double_scope.
Infix "-" := dsub : double_scope.
Infix "*" := dmul : double_scope.
Infix "/" := ddiv : double_scope.
Infix "<?" := dltb : double_scope.
Infix "<=?" := dleb : double_scope.

(** *** IEEE 754 binary64 *)

(** [static_cast<double>] of an integer below 2^63 in absolute value. *)
Definition float_of_int (z : Z) : float :=
  match z with
  | Z0 => PrimFloat.zero
  | Zpos _ => PrimFloat.of_uint63 (Uint63.of_Z z)
  | Zneg p => PrimFloat.opp (PrimFloat.of_uint63 (Uint63.of_Z (Zpos p)))
  end.

(** No rounding step turns a non-negative mantissa into a negative one, so
    rounding such a mantissa never yields a NaN. *)
Lemma shr_1_nonneg (r : shr_record) : 0 <= shr_m r -> 0 <= shr_m (shr_1 r).
Proof.
  destruct r as [m r s]. destruct m as [|[p|p|]|[p|p|]]; simpl; lia.
Qed.

Lemma iter_shr_1_nonneg (p : positive) :
  forall r, 0 <= shr_m r -> 0 <= shr_m (iter_pos shr_1 p r).
Proof.
  induction p as [p IH|p IH|]; intros r Hr; simpl.
  - apply IH, IH, shr_1_nonneg, Hr.
  - apply IH, IH, Hr.
  - apply shr_1_nonneg, Hr.
Qed.

Lemma shr_fexp_nonneg (m e : Z) (l : location) :
  0 <= m -> 0 <= shr_m (fst (shr_fexp prec emax m e l)).
Proof.
  intros Hm. unfold shr_fexp, shr.
  assert (H0 : 0 <= shr_m (shr_record_of_loc m l)) by (destruct l as [|[]]; exact Hm).
  destruct (fexp prec emax (Zdigits2 m + e) - e); simpl; try exact H0.
  apply iter_shr_1_nonneg, H0.
Qed.

Lemma round_nearest_even_nonneg (m : Z) (l : location) :
  0 <= m -> 0 <= round_nearest_even m l.
Proof.
  intros Hm. destruct l as [|[]]; simpl; try destruct (Z.even m); lia.
Qed.

Lemma binary_round_aux_not_nan (sx : bool) (mx ex : Z) (lx : location) :
  0 <= mx -> binary_round_aux prec emax sx mx ex lx <> S754_nan.
Proof.
  intros Hm. unfold binary_round_aux.
  pose proof (shr_fexp_nonneg mx ex lx Hm) as H1.
  destruct (shr_fexp prec emax mx ex lx) as [mrs' e'].
  simpl in H1.
  pose proof (shr_fexp_nonneg _ e' loc_Exact
                (round_nearest_even_nonneg _ (loc_of_shr_record mrs') H1)) as H2.
  destruct (shr_fexp prec emax _ e' loc_Exact) as [mrs'' e''].
  simpl in H2.
  destruct (shr_m mrs''); [discriminate | | lia].
  destruct (e'' <=? emax - prec); discriminate.
Qed.

Definition positive_sf (x : spec_float) : Prop :=
  SFltb (S754_zero false) x = true.

Lemma SFadd_positive_not_nan (x y : spec_float) :
  positive_sf x -> positive_sf y -> SF64add x y <> S754_nan.
Proof.
  unfold positive_sf, SFltb.
  destruct x as [sx|sx| |sx mx ex]; try discriminate;
    destruct y as [sy|sy| |sy my ey]; try discriminate;
    destruct sx, sy; try discriminate; intros _ _; try (simpl; discriminate).
  unfold SF64add, SFadd, binary_normalize, cond_Zopp.
  cbn [Z.add]. unfold binary_round.
  destruct (shl_align _ _ _) as [mz ez].
  apply binary_round_aux_not_nan. lia.
Qed.

Lemma SFdiv_finite_not_nan (x : spec_float) (sy : bool) (my : positive) (ey : Z) :
  x <> S754_nan -> SF64div x (S754_finite sy my ey) <> S754_nan.
Proof.
  intros Hx. destruct x as [sx|sx| |sx mx ex]; try (simpl; discriminate).
  - congruence.
  - unfold SF64div, SFdiv, SFdiv_core_binary.
    match goal with |- context [Z.div_eucl ?a ?b] =>
      pose proof (Z.div_pos a b) as Hq; unfold Z.div in Hq;
      destruct (Z.div_eucl a b) as [q r] eqn:E end.
    apply binary_round_aux_not_nan. apply Hq; [|lia].
    match goal with |- 0 <= match ?s with _ => _ end => destruct s end;
      try lia.
    apply Z.shiftl_nonneg. lia.
Qed.

Lemma not_nan_test (x : spec_float) :
  x <> S754_nan ->
  SFleb x (S754_zero false) = negb (SFltb (S754_zero false) x).
Proof.
  intros Hx. destruct x as [s|s| |s m e]; try congruence;
    destruct s; reflexivity.
Qed.

(** The mean of two positive binary64 numbers is a number (possibly
    infinite), so exactly one of the tests [<= 0] and [> 0] holds of it. *)
Lemma binary64_mid_test (b a : float) :
  (0 <? b)%float = true -> (0 <? a)%float = true ->
  ((b + a) / 2 <=? 0)%float = negb (0 <? (b + a) / 2)%float.
Proof.
  rewrite !FloatAxioms.ltb_spec, FloatAxioms.leb_spec, FloatAxioms.div_spec,
    FloatAxioms.add_spec.
  change (Prim2SF 0) with (S754_zero false).
  intros Hb Ha.
  apply not_nan_test.
  replace (Prim2SF 2) with (S754_finite false 4503599627370496 (-51))
    by (vm_compute; reflexivity).
  apply SFdiv_finite_not_nan.
  apply SFadd_positive_not_nan; assumption.
Qed.

#[export] Instance Double_binary64 : Double float := {|
  of_int := float_of_int;
  dadd := PrimFloat.add;
  dsub := PrimFloat.sub;
  dmul := PrimFloat.mul;
  ddiv := PrimFloat.div;
  dltb := PrimFloat.ltb;
  dleb := PrimFloat.leb;
  dleb_zero := eq_refl;
  dltb_zero := eq_refl;
  dmid_test := binary64_mid_test
|}.

(** *** Exact rationals *)

Definition Qltb (x y : Q) : bool := negb (Qle_bool y x).

Lemma exact_mid_test (b a : Q) :
  Qltb (inject_Z 0) b = true -> Qltb (inject_Z 0) a = true ->
  Qle_bool (Qdiv (Qplus b a) (inject_Z 2)) (inject_Z 0)
  = negb (Qltb (inject_Z 0) (Qdiv (Qplus b a) (inject_Z 2))).
Proof.
  intros _ _. unfold Qltb. now rewrite negb_involutive.
Qed.

#[export] Instance Double_exact : Double Q := {|
  of_int := inject_Z;
  dadd := Qplus;
  dsub := Qminus;
  dmul := Qmult;
  ddiv := Qdiv;
  dltb := Qltb;
  dleb := Qle_bool;
  dleb_zero := eq_refl;
  dltb_zero := eq_refl;
  dmid_test := exact_mid_test
|}.

(** ** The arithmetic of [int] *)

Definition INT_MIN : Z := -2147483648.
Definition INT_MAX : Z := 2147483647.

(** The value an [int] holds after an operation whose mathematical result
    is [z]: the representative of [z] modulo 2^32 between [INT_MIN] and
    [INT_MAX]. *)
Definition int_wrap (z : Z) : Z :=
  (z - INT_MIN) mod 4294967296 + INT_MIN.

(** ** Data model *)

Section Model.

Context {D : Type} {DD : Double D}.

Local Notation "0.0" := (of_int 0) (only parsing).

(** [struct OrderBookLevel] *)
Record OrderBookLevel : Type := mkLevel {
  price : D;
  size : Z
}.

Definition OrderBookLevel_isValid (l : OrderBookLevel) : bool :=
  (0.0 <? price l)%D && (0 <? size l).

(** [struct OrderBookSnapshot] *)
Record OrderBookSnapshot : Type := mkSnapshot {
  timestamp : string;
  date : string;
  bids : list OrderBookLevel;
  asks : list OrderBookLevel
}.

Definition getMidPrice (s : OrderBookSnapshot) : D :=
  match bids s, asks s with
  | b0 :: _, a0 :: _ =>
      if (0.0 <? price b0)%D && (0.0 <? price a0)%D
      then ((price b0 + price a0) / of_int 2)%D
      else 0.0
  | _, _ => 0.0
  end.

Definition getSpread (s : OrderBookSnapshot) : D :=
  match bids s, asks s with
  | b0 :: _, a0 :: _ =>
      if (0.0 <? price b0)%D && (0.0 <? price a0)%D
      then (price a0 - price b0)%D
      else 0.0
  | _, _ => 0.0
  end.

(** [std::accumulate(levels.begin(), levels.end(), 0, sum + level.size)],
    the sum being an [int]. *)
Definition total_depth (levels : list OrderBookLevel) : Z :=
  fold_left (fun sum level => int_wrap (sum + size level)) levels 0.

Definition getTotalBidDepth (s : OrderBookSnapshot) : Z := total_depth (bids s).
Definition getTotalAskDepth (s : OrderBookSnapshot) : Z := total_depth (asks s).

Definition OrderBookSnapshot_isValid (s : OrderBookSnapshot) : bool :=
  (0.0 <? getMidPrice s)%D.

(** [struct ImpactResult] *)
Record ImpactResult : Type := mkResult {
  order_size : Z;
  avg_impact : D;
  impact_bps : D
}.

(** ** [calculateTemporaryImpact] *)

(** The three locals of the execution walk. *)
Record walk_state : Type := mkWalk {
  total_cost : D;
  total_shares : Z;
  remaining : Z
}.

(** The loop [for (const auto& level : levels) { if (...) break; ... }]. *)
Fixpoint consume (levels : list OrderBookLevel) (st : walk_state) : walk_state :=
  match levels with
  | [] => st
  | level :: rest =>
      if (remaining st <=? 0) || (price level <=? 0.0)%D || (size level <=? 0)
      then st
      else
        let take := Z.min (remaining st) (size level) in
        consume rest
          {| total_cost := (total_cost st + of_int take * price level)%D;
             total_shares := total_shares st + take;
             remaining := remaining st - take |}
  end.

(** Lines 323-347: the locals are initialised and one side is walked. *)
Definition execute (snapshot : OrderBookSnapshot) (side : string) (order_size : Z)
  : walk_state :=
  let st := {| total_cost := 0.0; total_shares := 0; remaining := order_size |} in
  if String.eqb side "buy" then consume (asks snapshot) st
  else consume (bids snapshot) st.

(** Lines 349-351: what the walk hands on, the filled quantity and, when
    shares were executed, the average price [total_cost / total_shares]. *)
Definition avg_price (st : walk_state) : D :=
  (total_cost st / of_int (total_shares st))%D.

Definition simulate (snapshot : OrderBookSnapshot) (side : string) (order_size : Z)
  : Z * option D :=
  let st := execute snapshot side order_size in
  (total_shares st, if 0 <? total_shares st then Some (avg_price st) else None).

(** Lines 355-361. *)
Definition impact_of (side : string) (avg_price mid_price : D) : D :=
  if String.eqb side "buy"
  then ((avg_price - mid_price) / mid_price)%D
  else ((mid_price - avg_price) / mid_price)%D.

(** The body of the loop over snapshots (lines 320-364): [None] when the
    snapshot is skipped, [Some impact] when [impact] is pushed. *)
Definition snapshot_impact (snapshot : OrderBookSnapshot) (side : string)
    (order_size : Z) : option D :=
  let mid_price := getMidPrice snapshot in
  if (mid_price <=? 0.0)%D then None
  else
    match simulate snapshot side order_size with
    | (_, Some avg) => Some (impact_of side avg mid_price)
    | (_, None) => None
    end.

Definition snapshot_step (side : string) (order_size : Z)
    (impacts : list D) (snapshot : OrderBookSnapshot) : list D :=
  match snapshot_impact snapshot side order_size with
  | Some impact => impacts ++ [impact]
  | None => impacts
  end.

Definition collect_impacts (snapshots : list OrderBookSnapshot) (side : string)
    (order_size : Z) : list D :=
  fold_left (snapshot_step side order_size) snapshots [].

(** [std::accumulate(impacts.begin(), impacts.end(), 0.0)] *)
Definition accumulate (impacts : list D) : D :=
  fold_left dadd impacts 0.0.

(** Lines 368-375. *)
Definition emit (results : list ImpactResult) (order_size : Z) (impacts : list D)
  : list ImpactResult :=
  match impacts with
  | [] => results
  | _ :: _ =>
      let avg_impact := (accumulate impacts / of_int (Z.of_nat (List.length impacts)))%D in
      results ++ [ {| order_size := order_size;
                      avg_impact := avg_impact;
                      impact_bps := (avg_impact * of_int 10000)%D |} ]
  end.

(** The loop [for (order_size = ...; order_size <= max_shares; order_size += 10)],
    entered at [order_size] with [results] collected so far. *)
Equations? size_loop (snapshots : list OrderBookSnapshot) (side : string)
    (max_shares : Z) (order_size : Z) (results : list ImpactResult)
  : list ImpactResult by wf (Z.to_nat (max_shares + 1 - order_size)) lt :=
  size_loop snapshots side max_shares order_size results
    with Z_le_gt_dec order_size max_shares := {
    | left _ =>
        size_loop snapshots side max_shares (order_size + 10)
          (emit results order_size (collect_impacts snapshots side order_size));
    | right _ => results }.
Proof. lia. Qed.

Definition calculateTemporaryImpact (snapshots : list OrderBookSnapshot)
    (side : string) (max_shares : Z) : list ImpactResult :=
  size_loop snapshots side max_shares 10 [].

(** The loop as the program runs it, with the counter an [int]:
    [order_size += 10] wraps around at [INT_MAX].  With a wrapping counter
    the loop need not end, so it is run with fuel, one unit for each test of
    the loop condition; [None] when the fuel is used up before the condition
    fails. *)
Fixpoint size_loop_int (fuel : nat) (snapshots : list OrderBookSnapshot)
    (side : string) (max_shares : Z) (order_size : Z)
    (results : list ImpactResult) : option (list ImpactResult) :=
  match fuel with
  | O => None
  | S fuel' =>
      if order_size <=? max_shares
      then size_loop_int fuel' snapshots side max_shares
             (int_wrap (order_size + 10))
             (emit results order_size (collect_impacts snapshots side order_size))
      else Some results
  end.

(** A call returns [curve] when enough fuel lets the loop end with it. *)
Definition calculateTemporaryImpact_returns (snapshots : list OrderBookSnapshot)
    (side : string) (max_shares : Z) (curve : list ImpactResult) : Prop :=
  exists fuel, size_loop_int fuel snapshots side max_shares 10 [] = Some curve.

(** The function body holds no [throw] and no assertion, so a call that
    ends returns its vector.  [outcome] names the two ways a call could end,
    so that statements about calls that fail can be written down. *)
Inductive outcome (A : Type) : Type :=
| Returned (a : A)
| Raised.

Definition calculateTemporaryImpact_call (snapshots : list OrderBookSnapshot)
    (side : string) (max_shares : Z) : outcome (list ImpactResult) :=
  Returned _ (calculateTemporaryImpact snapshots side max_shares).

(** ** The specification's reading of the simulator

    The definitions below follow the wording of the specification; the
    theorems compare them with the definitions above. *)

(** The walk of section 4.1 as the list of its fills, one [(take, level)]
    per level consumed: stop when [remaining == 0], at an invalid level
    ([price <= 0] or [size <= 0]), or when the levels are exhausted. *)
Fixpoint fills (levels : list OrderBookLevel) (remaining : Z)
  : list (Z * OrderBookLevel) :=
  match levels with
  | [] => []
  | level :: rest =>
      if (remaining =? 0) || ((price level <=? 0.0)%D || (size level <=? 0))
      then []
      else
        let take := Z.min remaining (size level) in
        (take, level) :: fills rest (remaining - take)
  end.

(** [cost += take * level.price], summed in walk order from [0.0]. *)
Definition fills_cost (fs : list (Z * OrderBookLevel)) : D :=
  fold_left (fun cost f => (cost + of_int (fst f) * price (snd f))%D) fs 0.0.

(** [filled += take]. *)
Definition fills_filled (fs : list (Z * OrderBookLevel)) : Z :=
  fold_left (fun filled f => filled + fst f) fs 0.

(** [simulate(snapshot, side, quantity) -> (filled, vwap | undefined)]. *)
Definition spec_simulate (levels : list OrderBookLevel) (quantity : Z)
  : Z * option D :=
  let fs := fills levels quantity in
  let filled := fills_filled fs in
  (filled, if filled =? 0 then None else Some (fills_cost fs / of_int filled)%D).

(** The side an order consumes, by name. *)
Definition consumed_side (snapshot : OrderBookSnapshot) (side : string)
  : list OrderBookLevel :=
  if String.eqb side "buy" then asks snapshot else bids snapshot.

Definition depth_of_consumed_side (snapshot : OrderBookSnapshot) (side : string) : Z :=
  if String.eqb side "buy" then getTotalAskDepth snapshot
  else getTotalBidDepth snapshot.

(** The sum of the level sizes of a side, as a number. *)
Definition sum_of_sizes (levels : list OrderBookLevel) : Z :=
  fold_right (fun level sum => size level + sum) 0 levels.

Definition filled_quantity (snapshot : OrderBookSnapshot) (side : string)
    (quantity : Z) : Z :=
  fst (simulate snapshot side quantity).

(** Lowest and highest price among the fills of a walk ([None] when nothing
    was consumed). *)
Definition dmin (x y : D) : D := if (y <? x)%D then y else x.
Definition dmax (x y : D) : D := if (x <? y)%D then y else x.

Definition lowest_price (fs : list (Z * OrderBookLevel)) : option D :=
  match fs with
  | [] => None
  | f :: rest => Some (fold_left (fun m g => dmin m (price (snd g))) rest (price (snd f)))
  end.

Definition highest_price (fs : list (Z * OrderBookLevel)) : option D :=
  match fs with
  | [] => None
  | f :: rest => Some (fold_left (fun m g => dmax m (price (snd g))) rest (price (snd f)))
  end.

(** The depth a walk can reach: the sizes of the levels before the first
    invalid one. *)
Fixpoint valid_depth (levels : list OrderBookLevel) : Z :=
  match levels with
  | [] => 0
  | level :: rest =>
      if (price level <=? 0.0)%D || (size level <=? 0) then 0
      else size level + valid_depth rest
  end.

(** The prices of the levels a walk consumed, in walk order. *)
Definition consumed_prices (levels : list OrderBookLevel) (quantity : Z) : list D :=
  map (fun f => price (snd f)) (fills levels quantity).

Definition strictly_increasing (xs : list D) : Prop :=
  StronglySorted (fun x y => (x <? y)%D = true) xs.

Definition strictly_decreasing (xs : list D) : Prop :=
  StronglySorted (fun x y => (y <? x)%D = true) xs.

(** The best bid is not above the best ask (the book is not crossed). *)
Definition book_not_crossed (snapshot : OrderBookSnapshot) : bool :=
  match bids snapshot, asks snapshot with
  | b0 :: _, a0 :: _ => (price b0 <=? price a0)%D
  | _, _ => true
  end.

(** ** The specification's reading of the curve builder *)

(** The sweep [min_size, min_size + step, ...] up to [max_size]; the program
    fixes [min_size = step = 10]. *)
Definition step_sequence (min_size max_size step : Z) : list Z :=
  map (fun k => min_size + step * Z.of_nat k)
      (seq 0 (Z.to_nat ((max_size - min_size) / step + 1))).

Definition requested_sizes (max_shares : Z) : list Z :=
  step_sequence 10 max_shares 10.

(** A snapshot contributes at a size when its mid-price is positive and the
    simulated fill is positive. *)
Definition contributes (side : string) (order_size : Z)
    (snapshot : OrderBookSnapshot) : bool :=
  (0.0 <? getMidPrice snapshot)%D
  && (0 <? filled_quantity snapshot side order_size).

Definition contribution (side : string) (order_size : Z)
    (snapshot : OrderBookSnapshot) : D :=
  impact_of side (avg_price (execute snapshot side order_size)) (getMidPrice snapshot).

Definition accumulated_impacts (snapshots : list OrderBookSnapshot)
    (side : string) (order_size : Z) : list D :=
  map (contribution side order_size)
      (filter (contributes side order_size) snapshots).

(** Arithmetic mean, summed in list order. *)
Definition mean (xs : list D) : D :=
  (fold_left dadd xs 0.0 / of_int (Z.of_nat (List.length xs)))%D.

Definition samples_at (snapshots : list OrderBookSnapshot) (side : string)
    (order_size : Z) : list ImpactResult :=
  match accumulated_impacts snapshots side order_size with
  | [] => []
  | impacts =>
      [ {| order_size := order_size;
           avg_impact := mean impacts;
           impact_bps := (mean impacts * of_int 10000)%D |} ]
  end.

(** Whether the aggregate of a size is non-empty. *)
Definition has_aggregate (snapshots : list OrderBookSnapshot) (side : string)
    (order_size : Z) : bool :=
  match accumulated_impacts snapshots side order_size with
  | [] => false
  | _ :: _ => true
  end.

(** A snapshot is excluded from the curves when leaving it out of a
    collection changes no curve. *)
Definition excluded_from_curves (snapshot : OrderBookSnapshot) : Prop :=
  forall (before after : list OrderBookSnapshot) (side : string) (max_shares : Z),
    calculateTemporaryImpact (before ++ snapshot :: after) side max_shares
    = calculateTemporaryImpact (before ++ after) side max_shares.

(** ** [loadData]: one row of an MBP-10 file *)

(** [split(str, delimiter)]: [std::getline] yields a token per delimiter and a
    last token only when characters remain. *)
Fixpoint split_from (token : string) (str : string) (delimiter : ascii)
  : list string :=
  match str with
  | EmptyString => if String.eqb token EmptyString then [] else [token]
  | String c rest =>
      if Ascii.eqb c delimiter
      then token :: split_from EmptyString rest delimiter
      else split_from (token ++ String c EmptyString) rest delimiter
  end.

Definition split (str : string) (delimiter : ascii) : list string :=
  split_from EmptyString str delimiter.

(** In-place assignment to element [i] of a vector, [i] within bounds. *)
Fixpoint update_nth {A : Type} (i : nat) (f : A -> A) (l : list A) : list A :=
  match l, i with
  | [], _ => []
  | x :: rest, O => f x :: rest
  | x :: rest, S j => x :: update_nth j f rest
  end.

Definition set_price (p : D) (l : OrderBookLevel) : OrderBookLevel :=
  {| price := p; size := size l |}.
Definition set_size (n : Z) (l : OrderBookLevel) : OrderBookLevel :=
  {| price := price l; size := n |}.

(** [col < tokens.size() && !tokens[col].empty()] *)
Definition field (tokens : list string) (col : nat) : option string :=
  match nth_error tokens col with
  | Some t => if String.eqb t EmptyString then None else Some t
  | None => None
  end.

Section Loader.

(** [std::stod] and [std::stoi] belong to the C++ library; [None] stands for
    a thrown [std::invalid_argument] or [std::out_of_range]. *)
Variable stod : string -> option D.
Variable stoi : string -> option Z.

(** One guarded assignment of the parsing loop; [None] when the conversion
    throws. *)
Definition assign_price (tokens : list string) (col i : nat)
    (levels : list OrderBookLevel) : option (list OrderBookLevel) :=
  match field tokens col with
  | Some t =>
      match stod t with
      | Some p => Some (update_nth i (set_price p) levels)
      | None => None
      end
  | None => Some levels
  end.

Definition assign_size (tokens : list string) (col i : nat)
    (levels : list OrderBookLevel) : option (list OrderBookLevel) :=
  match field tokens col with
  | Some t =>
      match stoi t with
      | Some n => Some (update_nth i (set_size n) levels)
      | None => None
      end
  | None => Some levels
  end.

(** The body of [for (int i = 0; i < 10; ++i)] on the pair (bids, asks). *)
Definition parse_level (tokens : list string) (i : nat)
    (sides : list OrderBookLevel * list OrderBookLevel)
  : option (list OrderBookLevel * list OrderBookLevel) :=
  let bid_px_col := (13 + 6 * i)%nat in
  let ask_px_col := (14 + 6 * i)%nat in
  let bid_sz_col := (15 + 6 * i)%nat in
  let ask_sz_col := (16 + 6 * i)%nat in
  match assign_price tokens bid_px_col i (fst sides) with
  | None => None
  | Some b1 =>
      match assign_size tokens bid_sz_col i b1 with
      | None => None
      | Some b2 =>
          match assign_price tokens ask_px_col i (snd sides) with
          | None => None
          | Some a1 =>
              match assign_size tokens ask_sz_col i a1 with
              | None => None
              | Some a2 => Some (b2, a2)
              end
          end
      end
  end.

Fixpoint parse_levels (tokens : list string) (indices : list nat)
    (sides : list OrderBookLevel * list OrderBookLevel)
  : option (list OrderBookLevel * list OrderBookLevel) :=
  match indices with
  | [] => Some sides
  | i :: rest =>
      match parse_level tokens i sides with
      | Some sides' => parse_levels tokens rest sides'
      | None => None
      end
  end.

Definition empty_level : OrderBookLevel := {| price := 0.0; size := 0 |}.

(** The body of the [while] loop (lines 214-266): [Some snapshot] when the
    row is pushed, [None] when it is skipped. *)
Definition parse_row (file_date : string) (line : string)
  : option OrderBookSnapshot :=
  let tokens := split line "," in
  if (List.length tokens <? 71)%nat then None
  else
    (* snapshot.bids.resize(10); snapshot.asks.resize(10); *)
    let bids0 := repeat empty_level 10 in
    let asks0 := repeat empty_level 10 in
    match parse_levels tokens (seq 0 10) (bids0, asks0) with
    | None => None
    | Some (bids1, asks1) =>
        if (0.0 <? price (nth 0 bids1 empty_level))%D
           && (0.0 <? price (nth 0 asks1 empty_level))%D
        then Some {| timestamp := nth 0 tokens EmptyString;
                     date := file_date;
                     bids := bids1;
                     asks := asks1 |}
        else None
    end.

(** [while (std::getline(file, line) && rows_loaded < 10000)] over the lines
    after the header. *)
Fixpoint load_rows (file_date : string) (lines : list string) (rows_loaded : Z)
    (snapshots : list OrderBookSnapshot) : list OrderBookSnapshot :=
  match lines with
  | [] => snapshots
  | line :: rest =>
      if rows_loaded <? 10000 then
        match parse_row file_date line with
        | Some snapshot =>
            load_rows file_date rest (rows_loaded + 1) (snapshots ++ [snapshot])
        | None => load_rows file_date rest rows_loaded snapshots
        end
      else snapshots
  end.

End Loader.

(** Conversions of plain decimal fields ([digits], [digits.digits], with an
    optional minus sign), on which [std::stoi] and [std::stod] agree with
    them; used to evaluate [parse_row] on concrete rows. *)
Definition digit_value (c : ascii) : option Z :=
  let n := Z.of_nat (nat_of_ascii c) in
  if (48 <=? n) && (n <=? 57) then Some (n - 48) else None.

Fixpoint digits_value (s : string) (acc : Z) : option Z :=
  match s with
  | EmptyString => Some acc
  | String c rest =>
      match digit_value c with
      | Some d => digits_value rest (10 * acc + d)
      | None => None
      end
  end.

Definition unsigned_value (s : string) : option Z :=
  match s with
  | EmptyString => None
  | _ => digits_value s 0
  end.

Definition decimal_stoi (s : string) : option Z :=
  match s with
  | String "-" rest => option_map Z.opp (unsigned_value rest)
  | _ => unsigned_value s
  end.

Fixpoint split_point (s : string) (whole : string) : string * option string :=
  match s with
  | EmptyString => (whole, None)
  | String c rest =>
      if Ascii.eqb c "."
      then (whole, Some rest)
      else split_point rest (whole ++ String c EmptyString)
  end.

Definition unsigned_decimal (s : string) : option D :=
  match split_point s EmptyString with
  | (whole, None) => option_map of_int (unsigned_value whole)
  | (whole, Some frac) =>
      match unsigned_value (whole ++ frac) with
      | Some m =>
          if String.eqb frac EmptyString then None
          else Some (of_int m / of_int (10 ^ Z.of_nat (String.length frac)))%D
      | None => None
      end
  end.

Definition decimal_stod (s : string) : option D :=
  match s with
  | String "-" rest =>
      option_map (fun x => (of_int 0 - x)%D) (unsigned_decimal rest)
  | _ => unsigned_decimal s
  end.

(** What the parsing loop leaves alone on one side: the length of the
    vector, and the price (size) of entry [k] unless [k] is one of the
    indices [js] visited and the row has a non-empty price (size) field for
    it, [px] and [sz] being the columns of the side's first level. *)
Definition left_alone (tokens : list string) (px sz : nat) (js : list nat)
    (levels levels' : list OrderBookLevel) : Prop :=
  List.length levels' = List.length levels
  /\ forall k,
       (~ In k js \/ field tokens (px + 6 * k) = None ->
        price (nth k levels' empty_level) = price (nth k levels empty_level))
       /\ (~ In k js \/ field tokens (sz + 6 * k) = None ->
           size (nth k levels' empty_level) = size (nth k levels empty_level)).

End Model.

Arguments OrderBookLevel D : clear implicits.
Arguments OrderBookSnapshot D : clear implicits.
Arguments ImpactResult D : clear implicits.
Arguments walk_state D : clear implicits.


Arguments outcome A : clear implicits.
Arguments Returned {A} a.
Arguments Raised {A}.


(** * Properties *)

(** ** Wrap-around of [int] *)

Lemma int_wrap_range (z : Z) : INT_MIN <= int_wrap z <= INT_MAX.
Proof.
  unfold int_wrap, INT_MIN, INT_MAX.
  pose proof (Z.mod_pos_bound (z - -2147483648) 4294967296 ltac:(lia)). lia.
Qed.

Lemma int_wrap_in_range (z : Z) :
  INT_MIN <= z <= INT_MAX -> int_wrap z = z.
Proof.
  unfold int_wrap, INT_MIN, INT_MAX. intros H.
  rewrite Z.mod_small by lia. lia.
Qed.

Lemma int_wrap_add_l (a b : Z) : int_wrap (int_wrap a + b) = int_wrap (a + b).
Proof.
  unfold int_wrap, INT_MIN. f_equal.
  replace ((a - -2147483648) mod 4294967296 + -2147483648 + b - -2147483648)
    with ((a - -2147483648) mod 4294967296 + b) by lia.
  replace (a + b - -2147483648) with ((a - -2147483648) + b) by lia.
  now rewrite Zplus_mod_idemp_l.
Qed.

Lemma int_wrap_add_r (a b : Z) : int_wrap (a + int_wrap b) = int_wrap (a + b).
Proof. rewrite (Z.add_comm a), int_wrap_add_l. f_equal. lia. Qed.

(** ** The execution walk *)

Section Walk.

Context {D : Type} {DD : Double D}.

Local Notation "0.0" := (of_int 0) (only parsing).

Lemma fold_add_take_shift (fs : list (Z * OrderBookLevel D)) (a : Z) :
  fold_left (fun filled f => filled + fst f) fs a
  = a + fold_left (fun filled f => filled + fst f) fs 0.
Proof.
  revert a. induction fs as [|f fs IH]; intros a; cbn [fold_left].
  - lia.
  - rewrite (IH (a + fst f)), (IH (0 + fst f)). lia.
Qed.

Lemma fills_filled_cons (f : Z * OrderBookLevel D) (fs : list (Z * OrderBookLevel D)) :
  fills_filled (f :: fs) = fst f + fills_filled fs.
Proof.
  unfold fills_filled. simpl. rewrite fold_add_take_shift. lia.
Qed.

(** Every fill takes a positive quantity, at most the level's size, from a
    level that passed the validity test; the takes never exceed the order. *)
Lemma fills_takes (levels : list (OrderBookLevel D)) :
  forall q, 0 <= q ->
    Forall (fun f => 0 < fst f <= size (snd f)
                     /\ (price (snd f) <=? 0.0)%D = false) (fills levels q)
    /\ 0 <= fills_filled (fills levels q) <= q.
Proof.
  induction levels as [|l ls IH]; intros q Hq; simpl.
  - split; [constructor | unfold fills_filled; simpl; lia].
  - destruct (q =? 0) eqn:Eq0; simpl.
    { split; [constructor | unfold fills_filled; simpl; lia]. }
    destruct (price l <=? 0.0)%D eqn:Ep; simpl.
    { split; [constructor | unfold fills_filled; simpl; lia]. }
    destruct (size l <=? 0) eqn:Es; simpl.
    { split; [constructor | unfold fills_filled; simpl; lia]. }
    apply Z.eqb_neq in Eq0. apply Z.leb_gt in Es.
    destruct (IH (q - Z.min q (size l)) ltac:(lia)) as [IH1 IH2].
    split.
    + constructor; [simpl; split; [lia | exact Ep] | exact IH1].
    + rewrite fills_filled_cons. simpl. lia.
Qed.

Lemma fills_filled_pos_iff (levels : list (OrderBookLevel D)) (q : Z) :
  0 <= q -> (0 < fills_filled (fills levels q) <-> fills levels q <> []).
Proof.
  intros Hq. destruct (fills_takes levels q Hq) as [HF Hb].
  destruct (fills levels q) as [|f fs] eqn:E.
  - unfold fills_filled; simpl. split; [lia | congruence].
  - split; [congruence | intros _].
    rewrite fills_filled_cons.
    inversion HF as [|? ? Hf HF']; subst.
    assert (0 <= fills_filled fs).
    { clear - HF'. induction fs as [|g gs IH].
      - unfold fills_filled; simpl; lia.
      - rewrite fills_filled_cons. inversion HF' as [|? ? Hg HG]; subst.
        specialize (IH HG). lia. }
    lia.
Qed.

(** The loop of the program computes the sums over the fills. *)
Lemma consume_fills (levels : list (OrderBookLevel D)) :
  forall st : walk_state D, 0 <= remaining st ->
    total_cost (consume levels st)
    = fold_left (fun cost f => (cost + of_int (fst f) * price (snd f))%D)
        (fills levels (remaining st)) (total_cost st)
    /\ total_shares (consume levels st)
       = total_shares st + fills_filled (fills levels (remaining st))
    /\ remaining (consume levels st)
       = remaining st - fills_filled (fills levels (remaining st)).
Proof.
  induction levels as [|l ls IH]; intros st Hst; simpl.
  - unfold fills_filled; simpl. repeat split; lia.
  - destruct (remaining st <=? 0) eqn:Er; simpl.
    { apply Z.leb_le in Er. assert (E : remaining st = 0) by lia.
      rewrite E; simpl. unfold fills_filled; simpl. repeat split; lia. }
    apply Z.leb_gt in Er.
    replace (remaining st =? 0) with false by (symmetry; apply Z.eqb_neq; lia).
    simpl.
    destruct (price l <=? 0.0)%D eqn:Ep; simpl.
    { unfold fills_filled; simpl. repeat split; lia. }
    destruct (size l <=? 0) eqn:Es; simpl.
    { unfold fills_filled; simpl. repeat split; lia. }
    apply Z.leb_gt in Es.
    match goal with |- context [consume ls ?st'] =>
      destruct (IH st' ltac:(simpl; lia)) as (IHc & IHs & IHr) end.
    simpl in IHc, IHs, IHr.
    rewrite IHc, IHs, IHr, fills_filled_cons. simpl.
    repeat split; lia.
Qed.

(** No intermediate value of the walk leaves the range [0, order_size]. *)
Lemma consume_bounds (levels : list (OrderBookLevel D)) (st : walk_state D) :
  0 <= remaining st ->
  0 <= remaining (consume levels st) <= remaining st
  /\ total_shares (consume levels st) + remaining (consume levels st)
     = total_shares st + remaining st.
Proof.
  intros Hst.
  destruct (consume_fills levels st Hst) as (_ & Hs & Hr).
  destruct (fills_takes levels (remaining st) Hst) as [_ Hb].
  lia.
Qed.

Lemma execute_fills (snapshot : OrderBookSnapshot D) (side : string) (q : Z) :
  0 <= q ->
  let fs := fills (consumed_side snapshot side) q in
  total_cost (execute snapshot side q) = fills_cost fs
  /\ total_shares (execute snapshot side q) = fills_filled fs
  /\ remaining (execute snapshot side q) = q - fills_filled fs.
Proof.
  intros Hq fs. subst fs. unfold execute, consumed_side.
  destruct (String.eqb side "buy");
    match goal with |- context [consume ?ls ?st] =>
      destruct (consume_fills ls st ltac:(simpl; lia)) as (Hc & Hs & Hr) end;
    simpl in Hc, Hs, Hr; rewrite Hc, Hs, Hr; unfold fills_cost; repeat split; lia.
Qed.

Lemma simulate_spec (snapshot : OrderBookSnapshot D) (side : string) (q : Z) :
  0 <= q ->
  simulate snapshot side q = spec_simulate (consumed_side snapshot side) q.
Proof.
  intros Hq. unfold simulate, spec_simulate, avg_price.
  destruct (execute_fills snapshot side q Hq) as (Hc & Hs & _).
  rewrite Hc, Hs.
  destruct (fills_takes (consumed_side snapshot side) q Hq) as [_ Hb].
  destruct (0 <? fills_filled (fills (consumed_side snapshot side) q)) eqn:E.
  - apply Z.ltb_lt in E.
    replace (fills_filled (fills (consumed_side snapshot side) q) =? 0) with false
      by (symmetry; apply Z.eqb_neq; lia).
    reflexivity.
  - apply Z.ltb_ge in E.
    replace (fills_filled (fills (consumed_side snapshot side) q) =? 0) with true
      by (symmetry; apply Z.eqb_eq; lia).
    reflexivity.
Qed.

(** C1. For a positive quantity, a buy order walks the ask levels and a sell
    order the bid levels, in stored order, taking [min(remaining, size)] at
    each level, adding [take * price] to the cost and [take] to the filled
    quantity, and stopping when nothing remains, at an invalid level or at
    the end of the levels; the result is the filled quantity with, when it
    is positive, the VWAP [cost / filled]. *)
Theorem simulate_walks_consumed_side :
  forall (snapshot : OrderBookSnapshot D) (quantity : Z),
    0 < quantity ->
    simulate snapshot "buy" quantity = spec_simulate (asks snapshot) quantity
    /\ simulate snapshot "sell" quantity = spec_simulate (bids snapshot) quantity
    /\ forall side,
         let st := execute snapshot side quantity in
         let fs := fills (consumed_side snapshot side) quantity in
         total_cost st = fills_cost fs
         /\ total_shares st = fills_filled fs
         /\ remaining st = quantity - fills_filled fs
         /\ (0 < total_shares st ->
             snd (simulate snapshot side quantity)
             = Some (total_cost st / of_int (total_shares st))%D).
Proof.
  intros snapshot q Hq. split; [|split].
  - apply (simulate_spec snapshot "buy"); lia.
  - apply (simulate_spec snapshot "sell"); lia.
  - intros side st fs. subst st fs.
    destruct (execute_fills snapshot side q ltac:(lia)) as (Hc & Hs & Hr).
    repeat split; try assumption.
    intros Hpos. unfold simulate. simpl.
    apply Z.ltb_lt in Hpos. rewrite Hpos. reflexivity.
Qed.

(** *** Filled quantity and depth *)

Lemma valid_depth_nonneg (levels : list (OrderBookLevel D)) :
  0 <= valid_depth levels.
Proof.
  induction levels as [|l ls IH]; simpl; [lia|].
  destruct ((price l <=? 0.0)%D || (size l <=? 0)) eqn:E; [lia|].
  apply orb_false_elim in E as [_ E]. apply Z.leb_gt in E. lia.
Qed.

Lemma consume_total_shares (levels : list (OrderBookLevel D)) :
  forall st : walk_state D,
    total_shares (consume levels st)
    = total_shares st + Z.min (Z.max 0 (remaining st)) (valid_depth levels).
Proof.
  induction levels as [|l ls IH]; intros st; simpl.
  - lia.
  - pose proof (valid_depth_nonneg ls) as Hv.
    destruct (remaining st <=? 0) eqn:Er; simpl.
    { apply Z.leb_le in Er.
      destruct ((price l <=? 0.0)%D || (size l <=? 0)) eqn:E.
      - lia.
      - apply orb_false_elim in E as [_ E]. apply Z.leb_gt in E. lia. }
    apply Z.leb_gt in Er.
    destruct (price l <=? 0.0)%D eqn:Ep; simpl; [lia|].
    destruct (size l <=? 0) eqn:Es; simpl; [lia|].
    apply Z.leb_gt in Es.
    rewrite IH. simpl. lia.
Qed.

Lemma filled_quantity_closed_form (snapshot : OrderBookSnapshot D)
    (side : string) (q : Z) :
  filled_quantity snapshot side q
  = Z.min (Z.max 0 q) (valid_depth (consumed_side snapshot side)).
Proof.
  unfold filled_quantity, simulate, execute, consumed_side. simpl.
  destruct (String.eqb side "buy"); rewrite consume_total_shares; simpl; lia.
Qed.

Lemma sum_of_sizes_cons (l : OrderBookLevel D) (ls : list (OrderBookLevel D)) :
  sum_of_sizes (l :: ls) = size l + sum_of_sizes ls.
Proof. reflexivity. Qed.

Lemma total_depth_wraps (levels : list (OrderBookLevel D)) :
  total_depth levels = int_wrap (sum_of_sizes levels).
Proof.
  unfold total_depth.
  assert (H : forall xs a,
             fold_left (fun sum (level : OrderBookLevel D) =>
                          int_wrap (sum + size level)) xs (int_wrap a)
             = int_wrap (a + sum_of_sizes xs)).
  { induction xs as [|x xs IH]; intros a; cbn [fold_left].
    - unfold sum_of_sizes. cbn [fold_right]. now rewrite Z.add_0_r.
    - rewrite int_wrap_add_l, IH, sum_of_sizes_cons. f_equal. lia. }
  exact (H levels 0).
Qed.

Lemma sum_of_sizes_nonneg (levels : list (OrderBookLevel D)) :
  Forall (fun l => 0 <= size l) levels -> 0 <= sum_of_sizes levels.
Proof.
  induction 1 as [|l ls Hl _ IH]; [unfold sum_of_sizes; simpl; lia|].
  rewrite sum_of_sizes_cons. lia.
Qed.

Lemma valid_depth_le_sum (levels : list (OrderBookLevel D)) :
  Forall (fun l => 0 <= size l) levels ->
  valid_depth levels <= sum_of_sizes levels.
Proof.
  induction 1 as [|l ls Hl Hls IH]; [unfold sum_of_sizes; simpl; lia|].
  rewrite sum_of_sizes_cons. cbn [valid_depth].
  pose proof (sum_of_sizes_nonneg ls Hls).
  destruct ((price l <=? 0.0)%D || (size l <=? 0)); lia.
Qed.

Lemma depth_of_consumed_side_total (snapshot : OrderBookSnapshot D) (side : string) :
  depth_of_consumed_side snapshot side = total_depth (consumed_side snapshot side).
Proof.
  unfold depth_of_consumed_side, consumed_side, getTotalAskDepth, getTotalBidDepth.
  destruct (String.eqb side "buy"); reflexivity.
Qed.

(** C5, as the program has it.  The filled quantity never decreases when
    the requested quantity grows.  The depth the accessors return is the sum
    of the level sizes of the side reduced modulo 2^32 into [int]; for a
    non-negative quantity, on a side none of whose levels has a negative
    size and whose sizes sum to at most [INT_MAX], the depth is that sum and
    the filled quantity is at most the quantity and at most the depth. *)
Theorem filled_monotone_and_bounded :
  forall (snapshot : OrderBookSnapshot D) (side : string),
    (forall q1 q2, q1 <= q2 ->
       filled_quantity snapshot side q1 <= filled_quantity snapshot side q2)
    /\ depth_of_consumed_side snapshot side
       = int_wrap (sum_of_sizes (consumed_side snapshot side))
    /\ (forall q, 0 <= q ->
          Forall (fun l => 0 <= size l) (consumed_side snapshot side) ->
          sum_of_sizes (consumed_side snapshot side) <= INT_MAX ->
          depth_of_consumed_side snapshot side
          = sum_of_sizes (consumed_side snapshot side)
          /\ filled_quantity snapshot side q
             <= Z.min q (depth_of_consumed_side snapshot side)).
Proof.
  intros snapshot side. split; [|split].
  - intros q1 q2 Hq. rewrite !filled_quantity_closed_form. lia.
  - rewrite depth_of_consumed_side_total. apply total_depth_wraps.
  - intros q Hq Hsizes Hsum.
    assert (E : depth_of_consumed_side snapshot side
                = sum_of_sizes (consumed_side snapshot side)).
    { rewrite depth_of_consumed_side_total, total_depth_wraps.
      apply int_wrap_in_range.
      pose proof (sum_of_sizes_nonneg _ Hsizes). unfold INT_MIN. lia. }
    split; [exact E|].
    rewrite E, filled_quantity_closed_form.
    pose proof (valid_depth_le_sum _ Hsizes). lia.
Qed.

End Walk.

(** ** The curve builder *)

Section Curve.

Context {D : Type} {DD : Double D}.

Local Notation "0.0" := (of_int 0) (only parsing).

(** The test [mid_price <= 0] of the program skips exactly the snapshots
    whose mid-price is not positive. *)
Lemma mid_price_test (snapshot : OrderBookSnapshot D) :
  (getMidPrice snapshot <=? 0.0)%D = negb (0.0 <? getMidPrice snapshot)%D.
Proof.
  unfold getMidPrice.
  destruct (bids snapshot) as [|b bs]; [now rewrite dleb_zero, dltb_zero|].
  destruct (asks snapshot) as [|a as']; [now rewrite dleb_zero, dltb_zero|].
  destruct (0.0 <? price b)%D eqn:Eb; cbn [andb];
    [|now rewrite dleb_zero, dltb_zero].
  destruct (0.0 <? price a)%D eqn:Ea; [|now rewrite dleb_zero, dltb_zero].
  now apply dmid_test.
Qed.

Lemma snapshot_impact_contributes (snapshot : OrderBookSnapshot D)
    (side : string) (os : Z) :
  snapshot_impact snapshot side os
  = if contributes side os snapshot
    then Some (contribution side os snapshot) else None.
Proof.
  unfold snapshot_impact, contributes, contribution, filled_quantity, simulate.
  rewrite mid_price_test. simpl.
  destruct (0.0 <? getMidPrice snapshot)%D; simpl; [|reflexivity].
  destruct (0 <? total_shares (execute snapshot side os)); reflexivity.
Qed.

Lemma fold_snapshot_step (snapshots : list (OrderBookSnapshot D))
    (side : string) (os : Z) :
  forall impacts,
    fold_left (snapshot_step side os) snapshots impacts
    = impacts ++ accumulated_impacts snapshots side os.
Proof.
  unfold accumulated_impacts.
  induction snapshots as [|x xs IH]; intros impacts; simpl.
  - now rewrite app_nil_r.
  - rewrite IH. unfold snapshot_step. rewrite snapshot_impact_contributes.
    destruct (contributes side os x); simpl.
    + now rewrite <- app_assoc.
    + reflexivity.
Qed.

Lemma collect_impacts_spec (snapshots : list (OrderBookSnapshot D))
    (side : string) (os : Z) :
  collect_impacts snapshots side os = accumulated_impacts snapshots side os.
Proof.
  unfold collect_impacts. now rewrite fold_snapshot_step.
Qed.

Lemma emit_spec (snapshots : list (OrderBookSnapshot D)) (side : string)
    (os : Z) (results : list (ImpactResult D)) :
  emit results os (collect_impacts snapshots side os)
  = results ++ samples_at snapshots side os.
Proof.
  rewrite collect_impacts_spec. unfold emit, samples_at, mean, accumulate.
  destruct (accumulated_impacts snapshots side os).
  - now rewrite app_nil_r.
  - reflexivity.
Qed.

(** The order sizes visited by the loop when it is entered at [os]. *)
Lemma size_loop_unroll (snapshots : list (OrderBookSnapshot D)) (side : string)
    (max_shares : Z) :
  forall (n : nat) (os : Z) (results : list (ImpactResult D)),
    n = Z.to_nat ((max_shares + 10 - os) / 10) ->
    size_loop snapshots side max_shares os results
    = results
      ++ flat_map (samples_at snapshots side)
           (map (fun k => os + 10 * Z.of_nat k) (seq 0 n)).
Proof.
  induction n as [|n IH]; intros os results Hn.
  - simp size_loop. destruct (Z_le_gt_dec os max_shares) as [Hle|Hgt]; simpl.
    + exfalso.
      assert (1 <= (max_shares + 10 - os) / 10)
        by (apply Z.div_le_lower_bound; lia).
      lia.
    + now rewrite app_nil_r.
  - change (seq 0 (S n)) with (0%nat :: seq 1 n).
    rewrite <- seq_shift, map_cons, map_map. cbn [flat_map].
    replace (os + 10 * Z.of_nat 0) with os by lia.
    simp size_loop. destruct (Z_le_gt_dec os max_shares) as [Hle|Hgt]; cbn [size_loop_unfold_clause_1].
    + rewrite (IH (os + 10)).
      * rewrite emit_spec, <- app_assoc. do 3 f_equal.
        apply map_ext. intros k. lia.
      * replace (max_shares + 10 - os) with (max_shares + 10 - (os + 10) + 1 * 10) in Hn
          by lia.
        rewrite Z.div_add in Hn by lia.
        assert (0 <= (max_shares + 10 - (os + 10)) / 10)
          by (apply Z.div_pos; lia).
        lia.
    + exfalso.
      assert ((max_shares + 10 - os) / 10 <= 0).
      { apply Z.lt_succ_r. apply Z.div_lt_upper_bound; lia. }
      lia.
Qed.

Lemma requested_sizes_unfold (max_shares : Z) :
  requested_sizes max_shares
  = map (fun k => 10 + 10 * Z.of_nat k)
        (seq 0 (Z.to_nat ((max_shares + 10 - 10) / 10))).
Proof.
  unfold requested_sizes, step_sequence. do 2 f_equal.
  replace (max_shares + 10 - 10) with (max_shares - 10 + 1 * 10) by lia.
  rewrite Z.div_add by lia. reflexivity.
Qed.

Lemma calculateTemporaryImpact_spec (snapshots : list (OrderBookSnapshot D))
    (side : string) (max_shares : Z) :
  calculateTemporaryImpact snapshots side max_shares
  = flat_map (samples_at snapshots side) (requested_sizes max_shares).
Proof.
  unfold calculateTemporaryImpact.
  rewrite (size_loop_unroll snapshots side max_shares _ 10 [] eq_refl).
  rewrite requested_sizes_unfold. reflexivity.
Qed.

(** *** The counter of the sweep *)

(** More fuel does not change what a run returns. *)
Lemma size_loop_int_more_fuel (snapshots : list (OrderBookSnapshot D))
    (side : string) (max_shares : Z) :
  forall (fuel fuel' : nat) (os : Z) (results curve : list (ImpactResult D)),
    (fuel <= fuel')%nat ->
    size_loop_int fuel snapshots side max_shares os results = Some curve ->
    size_loop_int fuel' snapshots side max_shares os results = Some curve.
Proof.
  induction fuel as [|fuel IH]; intros fuel' os results curve Hle H.
  - discriminate.
  - destruct fuel' as [|fuel']; [lia|].
    cbn [size_loop_int] in *.
    destruct (os <=? max_shares); [|exact H].
    apply (IH fuel'); [lia|exact H].
Qed.

Lemma calculateTemporaryImpact_returns_unique
    (snapshots : list (OrderBookSnapshot D)) (side : string) (max_shares : Z)
    (c1 c2 : list (ImpactResult D)) :
  calculateTemporaryImpact_returns snapshots side max_shares c1 ->
  calculateTemporaryImpact_returns snapshots side max_shares c2 ->
  c1 = c2.
Proof.
  intros [f1 H1] [f2 H2].
  apply (size_loop_int_more_fuel _ _ _ _ (Nat.max f1 f2)) in H1; [|lia].
  apply (size_loop_int_more_fuel _ _ _ _ (Nat.max f1 f2)) in H2; [|lia].
  congruence.
Qed.

(** For [max_shares < 2147483640] the counter, a multiple of 10, is at most
    2147483630 whenever the body runs, so [order_size += 10] never
    overflows: the loop ends and returns what the loop counting in [Z]
    returns. *)
Lemma size_loop_int_in_range (snapshots : list (OrderBookSnapshot D))
    (side : string) (max_shares : Z) :
  max_shares < 2147483640 ->
  forall (n : nat) (k : Z) (results : list (ImpactResult D)),
    1 <= k ->
    (Z.to_nat (max_shares + 10 - 10 * k) <= n)%nat ->
    exists fuel,
      size_loop_int fuel snapshots side max_shares (10 * k) results
      = Some (size_loop snapshots side max_shares (10 * k) results).
Proof.
  intros Hmax. induction n as [|n IH]; intros k results Hk Hn.
  - exists 1%nat. cbn [size_loop_int].
    replace (10 * k <=? max_shares) with false by (symmetry; apply Z.leb_gt; lia).
    simp size_loop. destruct (Z_le_gt_dec (10 * k) max_shares); [lia|reflexivity].
  - destruct (Z_le_gt_dec (10 * k) max_shares) as [Hle|Hgt] eqn:Edec.
    + destruct (IH (k + 1)
                   (emit results (10 * k) (collect_impacts snapshots side (10 * k))))
        as [fuel Hfuel]; [lia|lia|].
      exists (S fuel). cbn [size_loop_int].
      replace (10 * k <=? max_shares) with true by (symmetry; apply Z.leb_le; lia).
      rewrite int_wrap_in_range by (unfold INT_MIN, INT_MAX; lia).
      replace (10 * k + 10) with (10 * (k + 1)) by lia.
      rewrite Hfuel. f_equal.
      remember (size_loop snapshots side max_shares (10 * (k + 1)) _) as rest eqn:Erest.
      simp size_loop. rewrite Edec. cbn [size_loop_unfold_clause_1].
      subst rest. now replace (10 * k + 10) with (10 * (k + 1)) by lia.
    + exists 1%nat. cbn [size_loop_int].
      replace (10 * k <=? max_shares) with false by (symmetry; apply Z.leb_gt; lia).
      simp size_loop. rewrite Edec. reflexivity.
Qed.

Lemma calculateTemporaryImpact_in_range (snapshots : list (OrderBookSnapshot D))
    (side : string) (max_shares : Z) :
  max_shares < 2147483640 ->
  calculateTemporaryImpact_returns snapshots side max_shares
    (calculateTemporaryImpact snapshots side max_shares).
Proof.
  intros Hmax.
  destruct (size_loop_int_in_range snapshots side max_shares Hmax
              (Z.to_nat (max_shares + 10 - 10 * 1)) 1 [] ltac:(lia) ltac:(lia))
    as [fuel H].
  exists fuel. exact H.
Qed.

(** With [max_shares = INT_MAX] the loop condition never fails, whatever the
    counter wraps to: the call does not return. *)
Lemma size_loop_int_at_int_max (snapshots : list (OrderBookSnapshot D))
    (side : string) (max_shares : Z) :
  INT_MAX <= max_shares ->
  forall (fuel : nat) (os : Z) (results : list (ImpactResult D)),
    os <= INT_MAX ->
    size_loop_int fuel snapshots side max_shares os results = None.
Proof.
  intros Hmax. induction fuel as [|fuel IH]; intros os results Hos;
    cbn [size_loop_int]; [reflexivity|].
  replace (os <=? max_shares) with true by (symmetry; apply Z.leb_le; lia).
  apply IH. apply int_wrap_range.
Qed.

Lemma no_return_at_int_max (snapshots : list (OrderBookSnapshot D))
    (side : string) (max_shares : Z) (curve : list (ImpactResult D)) :
  INT_MAX <= max_shares ->
  ~ calculateTemporaryImpact_returns snapshots side max_shares curve.
Proof.
  intros Hmax [fuel H].
  rewrite (size_loop_int_at_int_max snapshots side max_shares Hmax) in H;
    [discriminate | unfold INT_MAX; lia].
Qed.

(** An empty collection adds no sample, at any counter value. *)
Lemma size_loop_int_no_snapshots (side : string) (max_shares : Z) :
  forall (fuel : nat) (os : Z) (curve : list (ImpactResult D)),
    size_loop_int fuel [] side max_shares os [] = Some curve -> curve = [].
Proof.
  induction fuel as [|fuel IH]; intros os curve H; cbn [size_loop_int] in H;
    [discriminate|].
  destruct (os <=? max_shares).
  - apply (IH _ _ H).
  - congruence.
Qed.

Lemma samples_at_nil (side : string) (os : Z) :
  samples_at (@nil (OrderBookSnapshot D)) side os = [].
Proof. reflexivity. Qed.

Lemma flat_map_all_nil {A B : Type} (f : A -> list B) (xs : list A) :
  (forall x, f x = []) -> flat_map f xs = [].
Proof.
  intros H. induction xs as [|x xs IH]; simpl; [reflexivity|].
  now rewrite H, IH.
Qed.

(** C3. At every size the accumulator holds exactly the impacts of the
    snapshots with positive mid-price and positive fill, in order; a
    non-empty accumulator yields exactly one sample, carrying the size, the
    arithmetic mean and the mean times 10000, and an empty one yields none.
    An empty collection never yields a sample.  For
    [max_shares < 2147483640], where the counter of the sweep does not
    overflow, the call returns, and the curve is the concatenation of these
    samples over the sweep; for an empty collection it is empty. *)
Theorem curve_accumulates_and_averages :
  forall (snapshots : list (OrderBookSnapshot D)) (side : string) (max_shares : Z),
    (forall os,
       collect_impacts snapshots side os
       = map (contribution side os) (filter (contributes side os) snapshots))
    /\ (forall os results,
          emit results os (collect_impacts snapshots side os)
          = results
            ++ match collect_impacts snapshots side os with
               | [] => []
               | impacts =>
                   [ {| order_size := os;
                        avg_impact := mean impacts;
                        impact_bps := (mean impacts * of_int 10000)%D |} ]
               end)
    /\ (forall curve,
          calculateTemporaryImpact_returns (@nil (OrderBookSnapshot D))
            side max_shares curve ->
          curve = [])
    /\ (max_shares < 2147483640 ->
        calculateTemporaryImpact_returns snapshots side max_shares
          (flat_map (samples_at snapshots side) (requested_sizes max_shares))
        /\ calculateTemporaryImpact_returns (@nil (OrderBookSnapshot D))
             side max_shares []).
Proof.
  intros snapshots side max_shares. split; [|split; [|split]].
  - intros os. apply collect_impacts_spec.
  - intros os results. rewrite emit_spec. unfold samples_at.
    rewrite collect_impacts_spec. reflexivity.
  - intros curve [fuel H]. apply (size_loop_int_no_snapshots _ _ _ _ _ H).
  - intros Hmax. split.
    + rewrite <- calculateTemporaryImpact_spec.
      now apply calculateTemporaryImpact_in_range.
    + pose proof (calculateTemporaryImpact_in_range
                    (@nil (OrderBookSnapshot D)) side max_shares Hmax) as H.
      rewrite calculateTemporaryImpact_spec in H.
      rewrite flat_map_all_nil in H; [exact H|].
      intros os. apply samples_at_nil.
Qed.

(** *** Order of the samples *)

Lemma order_sizes_of_samples (snapshots : list (OrderBookSnapshot D))
    (side : string) (sizes : list Z) :
  map (@order_size D) (flat_map (samples_at snapshots side) sizes)
  = filter (has_aggregate snapshots side) sizes.
Proof.
  induction sizes as [|os sizes IH]; simpl; [reflexivity|].
  rewrite map_app, IH. unfold samples_at, has_aggregate.
  destruct (accumulated_impacts snapshots side os); reflexivity.
Qed.

Lemma steps_sorted (a : Z) (n : nat) :
  forall start, StronglySorted Z.lt
                  (map (fun k => a + 10 * Z.of_nat k) (seq start n)).
Proof.
  induction n as [|n IH]; intros start; cbn [seq map]; constructor.
  - apply IH.
  - apply Forall_forall. intros x Hx.
    apply in_map_iff in Hx as (k & <- & Hk). apply in_seq in Hk. lia.
Qed.

Lemma filter_sorted (keep : Z -> bool) (xs : list Z) :
  StronglySorted Z.lt xs -> StronglySorted Z.lt (filter keep xs).
Proof.
  induction 1 as [|x xs Hs IH Hx]; simpl; [constructor|].
  destruct (keep x); [|exact IH].
  constructor; [exact IH|].
  apply Forall_forall. intros y Hy. apply filter_In in Hy as [Hy _].
  rewrite Forall_forall in Hx. now apply Hx.
Qed.

Lemma requested_sizes_In (max_shares os : Z) :
  In os (requested_sizes max_shares)
  <-> exists k, 1 <= k /\ os = 10 * k /\ os <= max_shares.
Proof.
  rewrite requested_sizes_unfold.
  replace (max_shares + 10 - 10) with max_shares by lia.
  rewrite in_map_iff. split.
  - intros (k & <- & Hk). apply in_seq in Hk.
    exists (1 + Z.of_nat k). repeat split; try lia.
    assert (Z.of_nat k < max_shares / 10) by lia.
    assert (Z.of_nat k + 1 <= max_shares / 10) by lia.
    pose proof (Z.mul_div_le max_shares 10 ltac:(lia)). lia.
  - intros (k & Hk & -> & Hle).
    exists (Z.to_nat (k - 1)). split; [lia|].
    apply in_seq. split; [lia|].
    assert (k <= max_shares / 10) by (apply Z.div_le_lower_bound; lia).
    lia.
Qed.

(** C7. For [max_shares < 2147483640], where the counter of the sweep does
    not overflow, the call returns, and the order sizes of the emitted
    samples are, in order, the sizes of the sweep 10, 20, ... up to
    [max_shares] whose aggregate is non-empty; in particular they are
    strictly increasing. *)
Theorem curve_sizes_follow_the_sweep :
  forall (snapshots : list (OrderBookSnapshot D)) (side : string) (max_shares : Z),
    max_shares < 2147483640 ->
    let curve := calculateTemporaryImpact snapshots side max_shares in
    calculateTemporaryImpact_returns snapshots side max_shares curve
    /\ map (@order_size D) curve
       = filter (has_aggregate snapshots side) (requested_sizes max_shares)
    /\ StronglySorted Z.lt (map (@order_size D) curve)
    /\ (forall os,
          In os (requested_sizes max_shares)
          <-> exists k, 1 <= k /\ os = 10 * k /\ os <= max_shares).
Proof.
  intros snapshots side max_shares Hmax curve. subst curve.
  split; [now apply calculateTemporaryImpact_in_range|].
  rewrite calculateTemporaryImpact_spec, order_sizes_of_samples.
  repeat split.
  - apply filter_sorted. unfold requested_sizes, step_sequence. apply steps_sorted.
  - apply requested_sizes_In.
  - apply requested_sizes_In.
Qed.

(** *** The side string *)

Lemma collect_impacts_other_side (snapshots : list (OrderBookSnapshot D))
    (side : string) (os : Z) :
  side <> "buy" ->
  collect_impacts snapshots side os = collect_impacts snapshots "sell" os.
Proof.
  intros Hside. apply String.eqb_neq in Hside.
  rewrite !collect_impacts_spec.
  unfold accumulated_impacts, contributes, contribution,
    filled_quantity, simulate, execute, impact_of.
  rewrite Hside. reflexivity.
Qed.

Lemma size_loop_int_other_side (snapshots : list (OrderBookSnapshot D))
    (side : string) (max_shares : Z) :
  side <> "buy" ->
  forall (fuel : nat) (os : Z) (results : list (ImpactResult D)),
    size_loop_int fuel snapshots side max_shares os results
    = size_loop_int fuel snapshots "sell" max_shares os results.
Proof.
  intros Hside. induction fuel as [|fuel IH]; intros os results;
    cbn [size_loop_int]; [reflexivity|].
  destruct (os <=? max_shares); [|reflexivity].
  now rewrite IH, collect_impacts_other_side.
Qed.

(** C10. Any side string other than [buy] behaves as [sell]: the walk
    consumes the bid levels, the impact is [(mid - vwap) / mid], and at
    every [max_shares] the call runs as the call with [sell] does, step by
    step, so that it returns a curve exactly when that call returns it.
    For [max_shares < 2147483640], where the counter of the sweep does not
    overflow, the call returns, with the curve of [sell]. *)
Theorem other_side_strings_behave_as_sell :
  forall (snapshots : list (OrderBookSnapshot D)) (max_shares : Z) (side : string),
    side <> "buy" ->
    (forall fuel,
       size_loop_int fuel snapshots side max_shares 10 []
       = size_loop_int fuel snapshots "sell" max_shares 10 [])
    /\ (forall curve,
          calculateTemporaryImpact_returns snapshots side max_shares curve
          <-> calculateTemporaryImpact_returns snapshots "sell" max_shares curve)
    /\ (max_shares < 2147483640 ->
        calculateTemporaryImpact_returns snapshots side max_shares
          (calculateTemporaryImpact snapshots "sell" max_shares))
    /\ (forall snapshot os,
          execute snapshot side os
          = consume (bids snapshot)
              {| total_cost := 0.0; total_shares := 0; remaining := os |})
    /\ (forall avg mid, impact_of side avg mid = ((mid - avg) / mid)%D).
Proof.
  intros snapshots max_shares side Hside.
  pose proof (size_loop_int_other_side snapshots side max_shares Hside) as E.
  apply String.eqb_neq in Hside.
  split; [|split; [|split; [|split]]].
  - intros fuel. apply E.
  - intros curve. unfold calculateTemporaryImpact_returns.
    split; intros [fuel H]; exists fuel; [rewrite <- E | rewrite E]; exact H.
  - intros Hmax.
    destruct (calculateTemporaryImpact_in_range snapshots "sell" max_shares Hmax)
      as [fuel H].
    exists fuel. now rewrite E.
  - intros snapshot os. unfold execute. now rewrite Hside.
  - intros avg mid. unfold impact_of. now rewrite Hside.
Qed.

(** *** Arguments below the first order size *)

Lemma requested_sizes_below_first (max_shares : Z) :
  max_shares < 10 -> requested_sizes max_shares = [].
Proof.
  intros H. unfold requested_sizes, step_sequence.
  assert ((max_shares - 10) / 10 < 0) by (apply Z.div_lt_upper_bound; lia).
  replace (Z.to_nat ((max_shares - 10) / 10 + 1)) with 0%nat by lia.
  reflexivity.
Qed.

(** C8, as the program has it.  The builder takes no minimum size and no
    step (both are the constant 10) and checks nothing: for every
    [max_shares] below the first order size, negative ones included, the
    call returns the empty curve. *)
Theorem small_max_shares_returns_empty :
  forall (snapshots : list (OrderBookSnapshot D)) (side : string) (max_shares : Z),
    max_shares < 10 ->
    calculateTemporaryImpact_call snapshots side max_shares = Returned [].
Proof.
  intros snapshots side max_shares H. unfold calculateTemporaryImpact_call.
  rewrite calculateTemporaryImpact_spec, requested_sizes_below_first by exact H.
  reflexivity.
Qed.

(** *** The mid-price *)

Lemma skipped_snapshot_excluded (s : OrderBookSnapshot D) :
  (0.0 <? getMidPrice s)%D = false -> excluded_from_curves s.
Proof.
  intros Hmid before after side max_shares.
  rewrite !calculateTemporaryImpact_spec. apply flat_map_ext. intros os.
  unfold samples_at, accumulated_impacts.
  rewrite !filter_app. simpl.
  unfold contributes at 2. rewrite Hmid. reflexivity.
Qed.

(** C2, as the program has it.  The mid-price is [(best bid price + best
    ask price) / 2] when both sides are non-empty and both best prices are
    positive, whatever the sizes, and [0.0] otherwise; the program's test
    [mid_price <= 0] holds exactly when the mid-price is not positive, and
    a snapshot whose mid-price is not positive is excluded from every
    curve. *)
Theorem mid_price_of_best_prices :
  forall s : OrderBookSnapshot D,
    (forall b bs a as',
       bids s = b :: bs -> asks s = a :: as' ->
       (0.0 <? price b)%D = true -> (0.0 <? price a)%D = true ->
       getMidPrice s = ((price b + price a) / of_int 2)%D)
    /\ (bids s = [] \/ asks s = []
        \/ (exists b bs, bids s = b :: bs /\ (0.0 <? price b)%D = false)
        \/ (exists a as', asks s = a :: as' /\ (0.0 <? price a)%D = false) ->
        getMidPrice s = 0.0 /\ excluded_from_curves s)
    /\ (getMidPrice s <=? 0.0)%D = negb (0.0 <? getMidPrice s)%D
    /\ ((0.0 <? getMidPrice s)%D = false -> excluded_from_curves s).
Proof.
  intros s. split; [|split; [|split]].
  - intros b bs a as' Hb Ha Hpb Hpa. unfold getMidPrice.
    rewrite Hb, Ha, Hpb, Hpa. reflexivity.
  - intros H.
    assert (E : getMidPrice s = 0.0).
    { unfold getMidPrice.
      destruct H as [H | [H | [(b & bs & H & Hp) | (a & as' & H & Hp)]]].
      - now rewrite H.
      - rewrite H. now destruct (bids s).
      - rewrite H, Hp. now destruct (asks s).
      - rewrite H, Hp. destruct (bids s); [reflexivity|].
        now rewrite andb_false_r. }
    split; [exact E|].
    apply skipped_snapshot_excluded. rewrite E. apply dltb_zero.
  - apply mid_price_test.
  - apply skipped_snapshot_excluded.
Qed.

End Curve.

(** ** Rows of [loadData] *)

Section Rows.

Context {D : Type} {DD : Double D}.
Variable stod : string -> option D.
Variable stoi : string -> option Z.

Local Notation "0.0" := (of_int 0) (only parsing).

Lemma update_nth_length {A : Type} (f : A -> A) (l : list A) :
  forall i, List.length (update_nth i f l) = List.length l.
Proof.
  induction l as [|x l IH]; intros [|i]; simpl; try reflexivity.
  now rewrite IH.
Qed.

Lemma nth_update_nth_other {A : Type} (f : A -> A) (d : A) (l : list A) :
  forall i k, k <> i -> nth k (update_nth i f l) d = nth k l d.
Proof.
  induction l as [|x l IH]; intros [|i] [|k] Hk; simpl; try reflexivity.
  - congruence.
  - apply IH. congruence.
Qed.

Lemma nth_update_nth_proj {A B : Type} (f : A -> A) (g : A -> B) (d : A)
    (l : list A) :
  (forall x, g (f x) = g x) ->
  forall i k, g (nth k (update_nth i f l) d) = g (nth k l d).
Proof.
  intros Hg. induction l as [|x l IH]; intros [|i] [|k]; simpl;
    try reflexivity; auto.
Qed.

Lemma left_alone_refl (tokens : list string) (px sz : nat) (js : list nat)
    (levels : list (OrderBookLevel D)) :
  left_alone tokens px sz js levels levels.
Proof. split; [reflexivity | intros k; split; reflexivity]. Qed.

Lemma left_alone_step (tokens : list string) (px sz : nat) (j : nat)
    (js : list nat) (l0 l1 l2 : list (OrderBookLevel D)) :
  left_alone tokens px sz [j] l0 l1 ->
  left_alone tokens px sz js l1 l2 ->
  left_alone tokens px sz (j :: js) l0 l2.
Proof.
  intros [Hlen1 H1] [Hlen2 H2]. split; [congruence|].
  intros k. destruct (H1 k) as [H1p H1s], (H2 k) as [H2p H2s].
  split; intros Hk.
  - rewrite H2p, H1p; [reflexivity | |];
      destruct Hk as [Hk|Hk]; auto; left; intros Hin; apply Hk; simpl in *; tauto.
  - rewrite H2s, H1s; [reflexivity | |];
      destruct Hk as [Hk|Hk]; auto; left; intros Hin; apply Hk; simpl in *; tauto.
Qed.

Lemma assign_price_alone (tokens : list string) (px sz j : nat)
    (levels levels' : list (OrderBookLevel D)) :
  assign_price stod tokens (px + 6 * j) j levels = Some levels' ->
  left_alone tokens px sz [j] levels levels'.
Proof.
  unfold assign_price. intros H.
  destruct (field tokens (px + 6 * j)) as [t|] eqn:Ef.
  - destruct (stod t) as [p|]; [|discriminate].
    injection H as <-. split; [apply update_nth_length|].
    intros k. split; intros Hk.
    + destruct (Nat.eq_dec k j) as [->|Hne].
      * destruct Hk as [Hk|Hk]; [exfalso; apply Hk; now left | congruence].
      * now rewrite nth_update_nth_other.
    + now apply (nth_update_nth_proj (set_price p) (@size D)).
  - injection H as <-. apply left_alone_refl.
Qed.

Lemma assign_size_alone (tokens : list string) (px sz j : nat)
    (levels levels' : list (OrderBookLevel D)) :
  assign_size stoi tokens (sz + 6 * j) j levels = Some levels' ->
  left_alone tokens px sz [j] levels levels'.
Proof.
  unfold assign_size. intros H.
  destruct (field tokens (sz + 6 * j)) as [t|] eqn:Ef.
  - destruct (stoi t) as [n|]; [|discriminate].
    injection H as <-. split; [apply update_nth_length|].
    intros k. split; intros Hk.
    + now apply (nth_update_nth_proj (set_size n) (@price D)).
    + destruct (Nat.eq_dec k j) as [->|Hne].
      * destruct Hk as [Hk|Hk]; [exfalso; apply Hk; now left | congruence].
      * now rewrite nth_update_nth_other.
  - injection H as <-. apply left_alone_refl.
Qed.

Lemma left_alone_same (tokens : list string) (px sz j : nat)
    (l0 l1 l2 : list (OrderBookLevel D)) :
  left_alone tokens px sz [j] l0 l1 ->
  left_alone tokens px sz [j] l1 l2 ->
  left_alone tokens px sz [j] l0 l2.
Proof.
  intros [Hlen1 H1] [Hlen2 H2]. split; [congruence|].
  intros k. destruct (H1 k) as [H1p H1s], (H2 k) as [H2p H2s].
  split; intros Hk; [rewrite H2p, H1p | rewrite H2s, H1s]; auto.
Qed.

Lemma parse_level_alone (tokens : list string) (j : nat)
    (sides sides' : list (OrderBookLevel D) * list (OrderBookLevel D)) :
  parse_level stod stoi tokens j sides = Some sides' ->
  left_alone tokens 13 15 [j] (fst sides) (fst sides')
  /\ left_alone tokens 14 16 [j] (snd sides) (snd sides').
Proof.
  unfold parse_level. intros H.
  destruct (assign_price stod tokens (13 + 6 * j) j (fst sides)) as [b1|] eqn:E1;
    [|discriminate].
  destruct (assign_size stoi tokens (15 + 6 * j) j b1) as [b2|] eqn:E2;
    [|discriminate].
  destruct (assign_price stod tokens (14 + 6 * j) j (snd sides)) as [a1|] eqn:E3;
    [|discriminate].
  destruct (assign_size stoi tokens (16 + 6 * j) j a1) as [a2|] eqn:E4;
    [|discriminate].
  injection H as <-. simpl. split.
  - eapply left_alone_same;
      [eapply assign_price_alone | eapply assign_size_alone]; eassumption.
  - eapply left_alone_same;
      [eapply assign_price_alone | eapply assign_size_alone]; eassumption.
Qed.

Lemma parse_levels_alone (tokens : list string) (js : list nat) :
  forall sides sides' : list (OrderBookLevel D) * list (OrderBookLevel D),
    parse_levels stod stoi tokens js sides = Some sides' ->
    left_alone tokens 13 15 js (fst sides) (fst sides')
    /\ left_alone tokens 14 16 js (snd sides) (snd sides').
Proof.
  induction js as [|j js IH]; intros sides sides' H; simpl in H.
  - injection H as <-. split; apply left_alone_refl.
  - destruct (parse_level stod stoi tokens j sides) as [mid|] eqn:E; [|discriminate].
    destruct (parse_level_alone _ _ _ _ E) as [Hb Ha].
    destruct (IH _ _ H) as [Hb' Ha'].
    split; eapply left_alone_step; eassumption.
Qed.

Lemma nth_repeat_empty (k n : nat) :
  nth k (repeat (@empty_level D DD) n) empty_level = empty_level.
Proof.
  revert k. induction n as [|n IH]; intros [|k]; simpl; auto.
Qed.

Lemma parse_row_ten_levels :
  forall (file_date line : string) (s : OrderBookSnapshot D),
    parse_row stod stoi file_date line = Some s ->
    List.length (bids s) = 10%nat
    /\ List.length (asks s) = 10%nat
    /\ forall i,
         let tokens := split line "," in
         (field tokens (13 + 6 * i) = None ->
          price (nth i (bids s) empty_level) = 0.0)
         /\ (field tokens (15 + 6 * i) = None ->
             size (nth i (bids s) empty_level) = 0)
         /\ (field tokens (14 + 6 * i) = None ->
             price (nth i (asks s) empty_level) = 0.0)
         /\ (field tokens (16 + 6 * i) = None ->
             size (nth i (asks s) empty_level) = 0).
Proof.
  intros file_date line s H. unfold parse_row in H.
  destruct (List.length (split line ",") <? 71)%nat; [discriminate|].
  destruct (parse_levels stod stoi (split line ",") (seq 0 10)
              (repeat empty_level 10, repeat empty_level 10))
    as [[bids1 asks1]|] eqn:E; [|discriminate].
  destruct ((0.0 <? price (nth 0 bids1 empty_level))%D
            && (0.0 <? price (nth 0 asks1 empty_level))%D); [|discriminate].
  injection H as <-. cbn [bids asks].
  destruct (parse_levels_alone _ _ _ _ E) as [[Hlb Hb] [Hla Ha]].
  cbn [fst snd] in Hlb, Hla, Hb, Ha.
  rewrite repeat_length in Hlb, Hla.
  split; [exact Hlb|]. split; [exact Hla|].
  intros i. destruct (Hb i) as [Hbp Hbs], (Ha i) as [Hap Has].
  repeat split; intros Hf.
  - rewrite Hbp by now right.
    now rewrite nth_repeat_empty.
  - rewrite Hbs by now right.
    now rewrite nth_repeat_empty.
  - rewrite Hap by now right.
    now rewrite nth_repeat_empty.
  - rewrite Has by now right.
    now rewrite nth_repeat_empty.
Qed.

Lemma load_rows_In (file_date : string) (lines : list string) :
  forall (rows_loaded : Z) (snapshots : list (OrderBookSnapshot D)) s,
    In s (load_rows stod stoi file_date lines rows_loaded snapshots) ->
    In s snapshots
    \/ exists line, In line lines /\ parse_row stod stoi file_date line = Some s.
Proof.
  induction lines as [|line lines IH]; intros n snapshots s H; simpl in H.
  - now left.
  - destruct (n <? 10000); [|now left].
    destruct (parse_row stod stoi file_date line) as [s'|] eqn:E.
    + destruct (IH _ _ _ H) as [Hin | (l & Hl & Hp)].
      * apply in_app_or in Hin as [Hin | [<- | []]].
        -- now left.
        -- right. exists line. split; [now left | exact E].
      * right. exists l. split; [now right | exact Hp].
    + destruct (IH _ _ _ H) as [Hin | (l & Hl & Hp)].
      * now left.
      * right. exists l. split; [now right | exact Hp].
Qed.

(** C9, as the program has it.  Every snapshot [loadData] pushes comes from
    a row of the file and has exactly ten bid and ten ask entries; an entry
    whose price (size) field is empty in the row is present with price
    [0.0] (size 0). *)
Theorem loaded_rows_have_ten_levels :
  forall (file_date : string) (lines : list string) (s : OrderBookSnapshot D),
    In s (load_rows stod stoi file_date lines 0 []) ->
    exists line,
      In line lines
      /\ parse_row stod stoi file_date line = Some s
      /\ List.length (bids s) = 10%nat
      /\ List.length (asks s) = 10%nat
      /\ forall i,
           let tokens := split line "," in
           (field tokens (13 + 6 * i) = None ->
            price (nth i (bids s) empty_level) = 0.0)
           /\ (field tokens (15 + 6 * i) = None ->
               size (nth i (bids s) empty_level) = 0)
           /\ (field tokens (14 + 6 * i) = None ->
               price (nth i (asks s) empty_level) = 0.0)
           /\ (field tokens (16 + 6 * i) = None ->
               size (nth i (asks s) empty_level) = 0).
Proof.
  intros file_date lines s H.
  destruct (load_rows_In _ _ _ _ _ H) as [[] | (line & Hl & Hp)].
  exists line. split; [exact Hl|]. split; [exact Hp|].
  exact (parse_row_ten_levels _ _ _ Hp).
Qed.

End Rows.

(** ** Exact arithmetic *)

Section Exact.

Open Scope Q_scope.

Lemma Qltb_lt (x y : Q) : Qltb x y = true <-> x < y.
Proof.
  unfold Qltb. rewrite negb_true_iff. split; intros H.
  - apply Qnot_le_lt. intros Hle. apply Qle_bool_iff in Hle. congruence.
  - destruct (Qle_bool y x) eqn:E; [|reflexivity].
    apply Qle_bool_iff in E. exfalso. now apply (Qlt_not_le x y).
Qed.

Lemma Qle_bool_false (x y : Q) : Qle_bool x y = false <-> y < x.
Proof.
  rewrite <- Qltb_lt. unfold Qltb. now rewrite negb_true_iff.
Qed.

(** The cost of a list of fills lies between [lo] and [hi] times the filled
    quantity when every price does and every take is positive. *)
Lemma fold_cost_bounds (lo hi : Q) (fs : list (Z * OrderBookLevel Q)) :
  Forall (fun f => (0 < fst f)%Z /\ lo <= price (snd f) <= hi) fs ->
  forall (c : Q) (n : Z),
    lo * inject_Z n <= c <= hi * inject_Z n ->
    lo * inject_Z (fold_left (fun filled f => (filled + fst f)%Z) fs n)
    <= fold_left (fun cost f => (cost + of_int (fst f) * price (snd f))%D) fs c
    <= hi * inject_Z (fold_left (fun filled f => (filled + fst f)%Z) fs n).
Proof.
  induction 1 as [|f fs [Ht [Hlo Hhi]] _ IH]; intros c n Hc; simpl.
  - exact Hc.
  - apply IH. rewrite inject_Z_plus.
    assert (Hpos : 0 < inject_Z (fst f)).
    { change 0 with (inject_Z 0). rewrite <- Zlt_Qlt. exact Ht. }
    destruct Hc as [Hc1 Hc2]. split.
    + assert (lo * inject_Z (fst f) <= inject_Z (fst f) * price (snd f)).
      { rewrite (Qmult_comm lo). apply Qmult_le_l; assumption. }
      lra.
    + assert (inject_Z (fst f) * price (snd f) <= hi * inject_Z (fst f)).
      { rewrite (Qmult_comm hi). apply Qmult_le_l; assumption. }
      lra.
Qed.

Lemma fills_cost_bounds (lo hi : Q) (fs : list (Z * OrderBookLevel Q)) :
  Forall (fun f => (0 < fst f)%Z /\ lo <= price (snd f) <= hi) fs ->
  lo * inject_Z (fills_filled fs) <= fills_cost fs <= hi * inject_Z (fills_filled fs).
Proof.
  intros H. unfold fills_cost, fills_filled.
  apply (fold_cost_bounds lo hi fs H).
  change (@of_int Q Double_exact 0%Z) with 0. change (inject_Z 0) with 0. lra.
Qed.

(** The average price of a walk that filled something lies between any
    bounds of the consumed prices. *)
Lemma avg_price_bounds (snapshot : OrderBookSnapshot Q) (side : string)
    (q : Z) (lo hi : Q) :
  (0 < filled_quantity snapshot side q)%Z ->
  Forall (fun p => lo <= p <= hi) (consumed_prices (consumed_side snapshot side) q) ->
  lo <= avg_price (execute snapshot side q) <= hi.
Proof.
  intros Hfilled Hprices.
  assert (Hq : (0 <= q)%Z).
  { rewrite filled_quantity_closed_form in Hfilled. lia. }
  destruct (execute_fills snapshot side q Hq) as (Hc & Hs & _).
  unfold filled_quantity, simulate in Hfilled. simpl in Hfilled.
  unfold avg_price. rewrite Hc, Hs. rewrite Hs in Hfilled.
  destruct (fills_takes (consumed_side snapshot side) q Hq) as [Htakes _].
  assert (HF : Forall (fun f => (0 < fst f)%Z /\ lo <= price (snd f) <= hi)
                 (fills (consumed_side snapshot side) q)).
  { unfold consumed_prices in Hprices. rewrite Forall_map in Hprices.
    rewrite Forall_forall in *. intros f Hf. split.
    - apply (Htakes f Hf).
    - apply (Hprices f Hf). }
  destruct (fills_cost_bounds lo hi _ HF) as [H1 H2].
  assert (Hpos : 0 < inject_Z (fills_filled (fills (consumed_side snapshot side) q))).
  { change 0 with (inject_Z 0). rewrite <- Zlt_Qlt. exact Hfilled. }
  simpl. split.
  - apply Qle_shift_div_l; assumption.
  - apply Qle_shift_div_r; assumption.
Qed.

Lemma fold_dmin_le (ps : list Q) :
  forall m, fold_left dmin ps m <= m
            /\ Forall (fun p => fold_left dmin ps m <= p) ps.
Proof.
  induction ps as [|p ps IH]; intros m; simpl.
  - split; [apply Qle_refl | constructor].
  - destruct (IH (dmin m p)) as [H1 H2].
    assert (Hm : dmin m p <= m /\ dmin m p <= p).
    { unfold dmin. simpl. destruct (Qltb p m) eqn:E.
      - apply Qltb_lt in E. split; [now apply Qlt_le_weak | apply Qle_refl].
      - split; [apply Qle_refl|]. unfold Qltb in E.
        apply negb_false_iff in E. now apply Qle_bool_iff in E. }
    split.
    + eapply Qle_trans; [exact H1 | apply Hm].
    + constructor; [eapply Qle_trans; [exact H1 | apply Hm] | exact H2].
Qed.

Lemma fold_dmax_ge (ps : list Q) :
  forall m, m <= fold_left dmax ps m
            /\ Forall (fun p => p <= fold_left dmax ps m) ps.
Proof.
  induction ps as [|p ps IH]; intros m; simpl.
  - split; [apply Qle_refl | constructor].
  - destruct (IH (dmax m p)) as [H1 H2].
    assert (Hm : m <= dmax m p /\ p <= dmax m p).
    { unfold dmax. simpl. destruct (Qltb m p) eqn:E.
      - apply Qltb_lt in E. split; [now apply Qlt_le_weak | apply Qle_refl].
      - split; [apply Qle_refl|]. unfold Qltb in E.
        apply negb_false_iff in E. now apply Qle_bool_iff in E. }
    split.
    + eapply Qle_trans; [apply Hm | exact H1].
    + constructor; [eapply Qle_trans; [apply Hm | exact H1] | exact H2].
Qed.

Lemma fold_left_map_snd {A : Type} (g : A -> A -> A)
    (fs : list (Z * OrderBookLevel Q)) (h : OrderBookLevel Q -> A) :
  forall m,
    fold_left (fun m f => g m (h (snd f))) fs m
    = fold_left g (map (fun f => h (snd f)) fs) m.
Proof.
  induction fs as [|f fs IH]; intros m; simpl; [reflexivity | apply IH].
Qed.

Lemma lowest_highest_bounds (fs : list (Z * OrderBookLevel Q)) :
  fs <> [] ->
  exists lo hi,
    lowest_price fs = Some lo /\ highest_price fs = Some hi
    /\ Forall (fun p => lo <= p <= hi) (map (fun f => price (snd f)) fs).
Proof.
  destruct fs as [|f fs]; [congruence | intros _].
  unfold lowest_price, highest_price.
  rewrite (fold_left_map_snd dmin fs (@price Q)).
  rewrite (fold_left_map_snd dmax fs (@price Q)).
  destruct (fold_dmin_le (map (fun f => price (snd f)) fs) (price (snd f))) as [L1 L2].
  destruct (fold_dmax_ge (map (fun f => price (snd f)) fs) (price (snd f))) as [U1 U2].
  eexists _, _. split; [reflexivity|]. split; [reflexivity|].
  simpl. constructor; [split; assumption|].
  rewrite Forall_forall in *. intros p Hp. split; [apply L2 | apply U2]; exact Hp.
Qed.

(** C6, in exact arithmetic.  Whenever a positive number of shares is
    filled, the VWAP the simulator returns lies between the lowest and the
    highest price among the levels consumed. *)
Theorem vwap_within_consumed_prices :
  forall (snapshot : OrderBookSnapshot Q) (side : string) (quantity : Z),
    (0 < filled_quantity snapshot side quantity)%Z ->
    exists vwap lo hi,
      snd (simulate snapshot side quantity) = Some vwap
      /\ lowest_price (fills (consumed_side snapshot side) quantity) = Some lo
      /\ highest_price (fills (consumed_side snapshot side) quantity) = Some hi
      /\ lo <= vwap /\ vwap <= hi.
Proof.
  intros snapshot side q Hfilled.
  assert (Hq : (0 <= q)%Z).
  { rewrite filled_quantity_closed_form in Hfilled. lia. }
  assert (Hne : fills (consumed_side snapshot side) q <> []).
  { apply fills_filled_pos_iff; [exact Hq|].
    destruct (execute_fills snapshot side q Hq) as (_ & Hs & _).
    unfold filled_quantity, simulate in Hfilled. simpl in Hfilled.
    now rewrite Hs in Hfilled. }
  destruct (lowest_highest_bounds _ Hne) as (lo & hi & Hlo & Hhi & Hall).
  exists (avg_price (execute snapshot side q)), lo, hi.
  split.
  { unfold simulate. simpl.
    unfold filled_quantity, simulate in Hfilled. simpl in Hfilled.
    apply Z.ltb_lt in Hfilled. now rewrite Hfilled. }
  split; [exact Hlo|]. split; [exact Hhi|].
  apply avg_price_bounds; assumption.
Qed.

(** *** Sign of the impact *)

(** When a snapshot yields an impact, its mid-price is the positive mean of
    the two best prices and the walk filled something. *)
Lemma snapshot_impact_inv (snapshot : OrderBookSnapshot Q) (side : string)
    (q : Z) (impact : Q) :
  snapshot_impact snapshot side q = Some impact ->
  exists b bs a as',
    bids snapshot = b :: bs /\ asks snapshot = a :: as'
    /\ getMidPrice snapshot == (price b + price a) / 2
    /\ 0 < getMidPrice snapshot
    /\ (0 < filled_quantity snapshot side q)%Z
    /\ impact = impact_of side (avg_price (execute snapshot side q))
                  (getMidPrice snapshot).
Proof.
  unfold snapshot_impact, simulate. intros H.
  destruct (getMidPrice snapshot <=? of_int 0)%D eqn:Emid; [discriminate|].
  apply Qle_bool_false in Emid. change (@of_int Q Double_exact 0%Z) with 0 in Emid.
  destruct (0 <? total_shares (execute snapshot side q))%Z eqn:Ef; [|discriminate].
  injection H as <-. apply Z.ltb_lt in Ef.
  unfold getMidPrice in Emid |- *.
  destruct (bids snapshot) as [|b bs]; [exfalso; revert Emid; apply Qlt_irrefl|].
  destruct (asks snapshot) as [|a as']; [exfalso; revert Emid; apply Qlt_irrefl|].
  destruct ((of_int 0 <? price b)%D && (of_int 0 <? price a)%D);
    [|exfalso; revert Emid; apply Qlt_irrefl].
  exists b, bs, a, as'. repeat split; try assumption; reflexivity.
Qed.

(** The first level consumed is the best level of the side. *)
Lemma consumed_prices_head (levels : list (OrderBookLevel Q)) (q : Z) :
  fills levels q <> [] ->
  exists l rest ps,
    levels = l :: rest /\ consumed_prices levels q = price l :: ps.
Proof.
  intros H. destruct levels as [|l rest]; [now contradiction H|].
  exists l, rest. unfold consumed_prices. cbn [fills] in H |- *.
  destruct ((q =? 0)%Z || ((price l <=? of_int 0)%D || (size l <=? 0)%Z));
    [now contradiction H|].
  cbn [map fst snd]. eexists. split; reflexivity.
Qed.

Lemma filled_positive_fills (snapshot : OrderBookSnapshot Q) (side : string) (q : Z) :
  (0 < filled_quantity snapshot side q)%Z ->
  fills (consumed_side snapshot side) q <> [].
Proof.
  intros Hfilled.
  assert (Hq : (0 <= q)%Z).
  { rewrite filled_quantity_closed_form in Hfilled. lia. }
  apply fills_filled_pos_iff; [exact Hq|].
  destruct (execute_fills snapshot side q Hq) as (_ & Hs & _).
  unfold filled_quantity, simulate in Hfilled. simpl in Hfilled.
  now rewrite Hs in Hfilled.
Qed.

(** C4, in exact arithmetic and for a book that is not crossed.  If the best
    bid is not above the best ask, then a buy order that walks up strictly
    increasing ask prices has impact [(vwap - mid) / mid >= 0], and a sell
    order that walks down strictly decreasing bid prices has impact
    [(mid - vwap) / mid >= 0]. *)
Theorem impact_nonnegative_when_not_crossed :
  forall (snapshot : OrderBookSnapshot Q) (quantity : Z),
    book_not_crossed snapshot = true ->
    (forall impact,
       snapshot_impact snapshot "buy" quantity = Some impact ->
       strictly_increasing (consumed_prices (asks snapshot) quantity) ->
       0 <= impact)
    /\ (forall impact,
          snapshot_impact snapshot "sell" quantity = Some impact ->
          strictly_decreasing (consumed_prices (bids snapshot) quantity) ->
          0 <= impact).
Proof.
  intros snapshot q Hbook. split; intros impact Himpact Hsorted.
  - destruct (snapshot_impact_inv _ _ _ _ Himpact)
      as (b & bs & a & as' & Hb & Ha & Hmid & Hpos & Hfilled & ->).
    pose proof (filled_positive_fills _ _ _ Hfilled) as Hne.
    change (consumed_side snapshot "buy") with (asks snapshot) in Hne.
    destruct (consumed_prices_head _ _ Hne) as (l & rest & ps & Hl & Hps).
    rewrite Ha in Hl. injection Hl as <- <-.
    destruct (lowest_highest_bounds _ Hne) as (lo & hi & _ & _ & Hall).
    fold (consumed_prices (asks snapshot) q) in Hall.
    assert (Hbounds : Forall (fun p => price a <= p <= hi)
                        (consumed_prices (consumed_side snapshot "buy") q)).
    { change (consumed_side snapshot "buy") with (asks snapshot).
      rewrite Hps in Hsorted, Hall |- *.
      inversion Hsorted as [|? ? _ Hgt]; subst.
      inversion Hall as [|? ? [_ Hhi] Hall']; subst.
      constructor; [split; [apply Qle_refl | exact Hhi]|].
      rewrite Forall_forall in *. intros p Hp. split.
      - apply Qlt_le_weak. apply Qltb_lt. exact (Hgt p Hp).
      - apply (Hall' p Hp). }
    destruct (avg_price_bounds _ _ _ _ _ Hfilled Hbounds) as [Havg _].
    unfold book_not_crossed in Hbook. rewrite Hb, Ha in Hbook.
    apply Qle_bool_iff in Hbook.
    clear Himpact. revert Havg.
    generalize (avg_price (execute snapshot "buy" q)). intros vwap Havg.
    unfold impact_of. simpl.
    apply Qle_shift_div_l; [exact Hpos|].
    rewrite Hmid.
    change ((price b + price a) / 2) with ((price b + price a) * (1 # 2)).
    lra.
  - destruct (snapshot_impact_inv _ _ _ _ Himpact)
      as (b & bs & a & as' & Hb & Ha & Hmid & Hpos & Hfilled & ->).
    pose proof (filled_positive_fills _ _ _ Hfilled) as Hne.
    change (consumed_side snapshot "sell") with (bids snapshot) in Hne.
    destruct (consumed_prices_head _ _ Hne) as (l & rest & ps & Hl & Hps).
    rewrite Hb in Hl. injection Hl as <- <-.
    destruct (lowest_highest_bounds _ Hne) as (lo & hi & _ & _ & Hall).
    fold (consumed_prices (bids snapshot) q) in Hall.
    assert (Hbounds : Forall (fun p => lo <= p <= price b)
                        (consumed_prices (consumed_side snapshot "sell") q)).
    { change (consumed_side snapshot "sell") with (bids snapshot).
      rewrite Hps in Hsorted, Hall |- *.
      inversion Hsorted as [|? ? _ Hlt]; subst.
      inversion Hall as [|? ? [Hlo _] Hall']; subst.
      constructor; [split; [exact Hlo | apply Qle_refl]|].
      rewrite Forall_forall in *. intros p Hp. split.
      - apply (Hall' p Hp).
      - apply Qlt_le_weak. apply Qltb_lt. exact (Hlt p Hp). }
    destruct (avg_price_bounds _ _ _ _ _ Hfilled Hbounds) as [_ Havg].
    unfold book_not_crossed in Hbook. rewrite Hb, Ha in Hbook.
    apply Qle_bool_iff in Hbook.
    clear Himpact. revert Havg.
    generalize (avg_price (execute snapshot "sell" q)). intros vwap Havg.
    unfold impact_of. simpl.
    apply Qle_shift_div_l; [exact Hpos|].
    rewrite Hmid.
    change ((price b + price a) / 2) with ((price b + price a) * (1 # 2)).
    lra.
Qed.

End Exact.

(** * Concrete books *)

Definition level64 (p : float) (n : Z) : OrderBookLevel float :=
  {| price := p; size := n |}.

Definition book64 (bs as' : list (OrderBookLevel float)) : OrderBookSnapshot float :=
  {| timestamp := "t0"; date := "2025-07-01"; bids := bs; asks := as' |}.

(** The scenario of the specification: asks at 100.00 and 100.05, five
    shares each, with a mirrored bid side. *)
Definition scenario : OrderBookSnapshot float :=
  book64 [level64 100 5; level64 99.95 5] [level64 100 5; level64 100.05 5].

(** A best bid with a positive price and no size. *)
Definition sizeless_best_bid : OrderBookSnapshot float :=
  book64 [level64 99 0] [level64 101 5].

(** A crossed book: the best bid is above the best ask. *)
Definition crossed : OrderBookSnapshot float :=
  book64 [level64 102 5] [level64 100 5; level64 101 5].

(** A locked book at a price that is not a binary fraction. *)
Definition locked : OrderBookSnapshot float :=
  book64 [level64 0.1 3] [level64 0.1 3].

(** An ask side whose second entry carries a negative size. *)
Definition negative_size : OrderBookSnapshot float :=
  book64 [level64 99 5] [level64 100 5; level64 101 (-20)].

(** Two rows of a file: in the first the fields of levels 3 to 10 are empty,
    in the second the tenth level reads 0 in all four fields. *)
Definition row_depth_two : string :=
  "ts,,,,,,,,,,,,,99.5,100.5,5,7,,,99.25,100.75,3,4,,,,,,,,,,,,,,,,,,,,,,,,,,,,,,,,,,,,,,,,,,,,,,,,,,,SYM".

Definition row_tenth_zero : string :=
  "ts,,,,,,,,,,,,,99.5,100.5,5,7,,,99.25,100.75,3,4,,,,,,,,,,,,,,,,,,,,,,,,,,,,,,,,,,,,,,,,,,,,,0,0,0,0,,,SYM".

Definition snapshot_depth_two : OrderBookSnapshot float :=
  {| timestamp := "ts"; date := "2025-07-01";
     bids := level64 99.5 5 :: level64 99.25 3 :: repeat (level64 0 0) 8;
     asks := level64 100.5 7 :: level64 100.75 4 :: repeat (level64 0 0) 8 |}.

(** The same scenario with exact prices. *)
Definition levelQ (p : Q) (n : Z) : OrderBookLevel Q :=
  {| price := p; size := n |}.

Definition scenarioQ : OrderBookSnapshot Q :=
  {| timestamp := "t0"; date := "2025-07-01";
     bids := [levelQ 100 5; levelQ 99.95 5];
     asks := [levelQ 100 5; levelQ 100.05 5] |}.

(** ** The walk on the scenario of the specification *)

Lemma scenario_buy_8 :
  simulate scenario "buy" 8 = spec_simulate (asks scenario) 8
  /\ simulate scenario "buy" 8 = (8, Some 100.01875%float).
Proof.
  split.
  - exact (proj1 (simulate_walks_consumed_side scenario 8 eq_refl)).
  - vm_compute. reflexivity.
Defined.

(** ** The mid-price ignores sizes *)

(** C2 fails as stated: the best bid of [sizeless_best_bid] is not a valid
    level, yet the mid-price is 100 and the snapshot contributes to the buy
    curve. *)
Lemma sizeless_best_bid_has_mid_price :
  OrderBookLevel_isValid (level64 99 0) = false
  /\ bids sizeless_best_bid = [level64 99 0]
  /\ getMidPrice sizeless_best_bid = 100%float
  /\ map (@order_size float)
        (calculateTemporaryImpact [sizeless_best_bid] "buy" 10) = [10]
  /\ ~ excluded_from_curves sizeless_best_bid.
Proof.
  repeat split; try (vm_compute; reflexivity).
  intros H. specialize (H [] [] "buy" 10). vm_compute in H. discriminate H.
Qed.

Lemma empty_bid_side_excluded :
  getMidPrice (book64 [] [level64 101 5]) = of_int 0
  /\ excluded_from_curves (book64 [] [level64 101 5]).
Proof.
  apply (proj1 (proj2 (mid_price_of_best_prices (book64 [] [level64 101 5])))).
  left. reflexivity.
Defined.

(** ** Depth with a negative size *)

(** C5 fails as stated: on [negative_size] a buy of 10 fills 5 shares while
    the ask depth is 5 + (-20) = -15. *)
Lemma negative_size_depth_below_fill :
  filled_quantity negative_size "buy" 10 = 5
  /\ depth_of_consumed_side negative_size "buy" = -15
  /\ ~ (filled_quantity negative_size "buy" 10
        <= Z.min 10 (depth_of_consumed_side negative_size "buy")).
Proof.
  repeat split; try (vm_compute; reflexivity).
  vm_compute. intros H. apply H. reflexivity.
Qed.

Lemma scenario_fill_bounded :
  filled_quantity scenario "buy" 8 <= filled_quantity scenario "buy" 20
  /\ depth_of_consumed_side scenario "buy"
     = sum_of_sizes (consumed_side scenario "buy")
  /\ filled_quantity scenario "buy" 20
     <= Z.min 20 (depth_of_consumed_side scenario "buy").
Proof.
  split.
  - apply (proj1 (filled_monotone_and_bounded scenario "buy")). lia.
  - apply (proj2 (proj2 (filled_monotone_and_bounded scenario "buy"))).
    + lia.
    + repeat constructor; simpl; lia.
    + vm_compute. discriminate.
Defined.

(** Without the bound on the sum the depth overflows: with bid sizes
    2147483647 and 1 the accessor returns -2147483648, below the 10 shares a
    sell of 10 fills, although no size is negative. *)
Example depth_overflows_below_fill :
  let deep := book64 [level64 100 2147483647; level64 99 1] [level64 101 5] in
  Forall (fun l => 0 <= size l) (bids deep)
  /\ sum_of_sizes (bids deep) = 2147483648
  /\ getTotalBidDepth deep = -2147483648
  /\ filled_quantity deep "sell" 10 = 10.
Proof.
  cbv zeta. split; [repeat constructor; simpl; lia|].
  repeat split; vm_compute; reflexivity.
Qed.

(** ** Sign of the impact *)

Lemma consumed_crossed :
  consumed_prices (asks crossed) 10 = [100%float; 101%float].
Proof. vm_compute. reflexivity. Qed.

Lemma consumed_locked :
  consumed_prices (bids locked) 10 = [0.1%float].
Proof. vm_compute. reflexivity. Qed.

(** C4 fails as stated, twice over.  On the crossed book the mid-price is
    positive and the buy walks up 100, 101, yet the impact is negative.  On
    the locked book, which is not crossed, binary64 rounding puts the VWAP
    of 3 shares at 0.1 above 0.1, and the sell impact is negative. *)
Lemma impact_negative_on_crossed_and_locked :
  ((of_int 0 <? getMidPrice crossed)%D = true
   /\ strictly_increasing (consumed_prices (asks crossed) 10)
   /\ exists impact,
        snapshot_impact crossed "buy" 10 = Some impact
        /\ (impact <? of_int 0)%D = true)
  /\ ((of_int 0 <? getMidPrice locked)%D = true
      /\ book_not_crossed locked = true
      /\ strictly_decreasing (consumed_prices (bids locked) 10)
      /\ exists impact,
           snapshot_impact locked "sell" 10 = Some impact
           /\ (impact <? of_int 0)%D = true).
Proof.
  split.
  - split; [vm_compute; reflexivity|]. split.
    + unfold strictly_increasing. rewrite consumed_crossed.
      repeat constructor.
    + eexists. split; vm_compute; reflexivity.
  - split; [vm_compute; reflexivity|]. split; [vm_compute; reflexivity|]. split.
    + unfold strictly_decreasing. rewrite consumed_locked. repeat constructor.
    + eexists. split; vm_compute; reflexivity.
Qed.

Lemma consumed_scenarioQ :
  consumed_prices (asks scenarioQ) 8 = [100%Q; 100.05%Q].
Proof. vm_compute. reflexivity. Qed.

Lemma scenarioQ_buy_impact_nonnegative :
  exists impact,
    snapshot_impact scenarioQ "buy" 8 = Some impact /\ (0 <= impact)%Q.
Proof.
  eexists. split.
  - vm_compute. reflexivity.
  - apply (proj1 (impact_nonnegative_when_not_crossed scenarioQ 8 eq_refl)).
    + vm_compute. reflexivity.
    + unfold strictly_increasing. rewrite consumed_scenarioQ.
      repeat constructor.
Defined.

(** ** Range of the VWAP *)

(** C6 fails as stated under binary64: the only level consumed on the
    locked book is priced 0.1, and the VWAP of the 3 shares filled is
    0.10000000000000002. *)
Lemma vwap_above_highest_price_on_locked :
  (0 < filled_quantity locked "buy" 10)
  /\ consumed_prices (asks locked) 10 = [0.1%float]
  /\ exists vwap hi,
       snd (simulate locked "buy" 10) = Some vwap
       /\ highest_price (fills (consumed_side locked "buy") 10) = Some hi
       /\ (hi <? vwap)%D = true.
Proof.
  split; [reflexivity|]. split; [vm_compute; reflexivity|].
  eexists _, _. repeat split; vm_compute; reflexivity.
Qed.

Lemma scenarioQ_vwap_within_prices :
  exists vwap lo hi,
    snd (simulate scenarioQ "buy" 8) = Some vwap
    /\ lowest_price (fills (consumed_side scenarioQ "buy") 8) = Some lo
    /\ highest_price (fills (consumed_side scenarioQ "buy") 8) = Some hi
    /\ (lo <= vwap)%Q /\ (vwap <= hi)%Q.
Proof.
  apply (vwap_within_consumed_prices scenarioQ "buy" 8). reflexivity.
Defined.

(** ** Sizes of the curve *)

Lemma scenario_curve_sizes :
  calculateTemporaryImpact_returns [scenario] "buy" 30
    (calculateTemporaryImpact [scenario] "buy" 30)
  /\ map (@order_size float) (calculateTemporaryImpact [scenario] "buy" 30)
     = filter (has_aggregate [scenario] "buy") (requested_sizes 30).
Proof.
  assert (H : 30 < 2147483640) by lia.
  pose proof (curve_sizes_follow_the_sweep [scenario] "buy" 30 H) as T.
  split; [exact (proj1 T) | exact (proj1 (proj2 T))].
Defined.

(** At [INT_MAX] the sweep does not return. *)
Example scenario_sweep_does_not_return :
  forall curve,
    ~ calculateTemporaryImpact_returns [scenario] "buy" 2147483647 curve.
Proof.
  intros curve. apply no_return_at_int_max. unfold INT_MAX. lia.
Qed.

Lemma scenario_curve_accumulated :
  calculateTemporaryImpact_returns [scenario] "buy" 30
    (flat_map (samples_at [scenario] "buy") (requested_sizes 30))
  /\ calculateTemporaryImpact_returns (@nil (OrderBookSnapshot float)) "buy" 30 [].
Proof.
  apply (proj2 (proj2 (proj2
           (curve_accumulates_and_averages [scenario] "buy" 30)))).
  lia.
Defined.

(** ** Side strings *)

Lemma capitalised_buy_is_sell :
  calculateTemporaryImpact_returns [scenario] "Buy" 30
    (calculateTemporaryImpact [scenario] "sell" 30).
Proof.
  assert (Hs : "Buy" <> "buy") by discriminate.
  apply (proj1 (proj2 (proj2
           (other_side_strings_behave_as_sell [scenario] 30 "Buy" Hs)))).
  lia.
Defined.

(** ** Arguments below the first order size *)

(** C8 fails as stated: with [max_shares] 5, or -10, the call returns the
    empty curve and raises nothing. *)
Lemma small_max_shares_not_raised :
  calculateTemporaryImpact_call [scenario] "buy" 5 = Returned []
  /\ calculateTemporaryImpact_call [scenario] "sell" (-10) = Returned []
  /\ calculateTemporaryImpact_call [scenario] "buy" 5 <> Raised
  /\ calculateTemporaryImpact_call [scenario] "sell" (-10) <> Raised.
Proof.
  repeat split; try (vm_compute; reflexivity); discriminate.
Qed.

Lemma max_shares_5_returns_empty :
  calculateTemporaryImpact_call [scenario] "buy" 5 = Returned [].
Proof.
  apply (small_max_shares_returns_empty [scenario] "buy" 5). lia.
Defined.

(** ** Rows with missing levels *)

Example split_keeps_inner_empty_fields :
  split "a,,b," "," = ["a"; EmptyString; "b"] /\ split EmptyString "," = [].
Proof. split; reflexivity. Qed.

Example row_depth_two_has_74_fields :
  List.length (split row_depth_two ",") = 74%nat
  /\ field (split row_depth_two ",") 13 = Some "99.5"
  /\ field (split row_depth_two ",") 67 = None
  /\ field (split row_tenth_zero ",") 67 = Some "0".
Proof. repeat split; vm_compute; reflexivity. Qed.

Lemma parse_row_depth_two :
  parse_row (D := float) decimal_stod decimal_stoi "2025-07-01" row_depth_two
  = Some snapshot_depth_two.
Proof. vm_compute. reflexivity. Qed.

(** C9 fails as stated: the row with two levels yields ten entries per side,
    the last eight being [(0.0, 0)], and it yields the same snapshot as the
    row whose tenth level is priced 0. *)
Lemma missing_level_is_zero_filled :
  String.eqb row_depth_two row_tenth_zero = false
  /\ parse_row (D := float) decimal_stod decimal_stoi "2025-07-01" row_depth_two
     = Some snapshot_depth_two
  /\ parse_row (D := float) decimal_stod decimal_stoi "2025-07-01" row_tenth_zero
     = Some snapshot_depth_two
  /\ List.length (bids snapshot_depth_two) = 10%nat
  /\ List.length (asks snapshot_depth_two) = 10%nat
  /\ nth_error (bids snapshot_depth_two) 9 = Some (level64 0 0)
  /\ nth_error (asks snapshot_depth_two) 9 = Some (level64 0 0).
Proof.
  repeat split; vm_compute; reflexivity.
Qed.

Lemma loaded_depth_two_has_ten_levels :
  exists line,
    In line [row_depth_two; "short,row"]
    /\ parse_row (D := float) decimal_stod decimal_stoi "2025-07-01" line
       = Some snapshot_depth_two
    /\ List.length (bids snapshot_depth_two) = 10%nat
    /\ List.length (asks snapshot_depth_two) = 10%nat
    /\ forall i,
         let tokens := split line "," in
         (field tokens (13 + 6 * i) = None ->
          price (nth i (bids snapshot_depth_two) empty_level) = of_int 0)
         /\ (field tokens (15 + 6 * i) = None ->
             size (nth i (bids snapshot_depth_two) empty_level) = 0)
         /\ (field tokens (14 + 6 * i) = None ->
             price (nth i (asks snapshot_depth_two) empty_level) = of_int 0)
         /\ (field tokens (16 + 6 * i) = None ->
             size (nth i (asks snapshot_depth_two) empty_level) = 0).
Proof.
  apply (loaded_rows_have_ten_levels (D := float) decimal_stod decimal_stoi
           "2025-07-01" [row_depth_two; "short,row"] snapshot_depth_two).
  vm_compute. left. reflexivity.
Defined.

(** * Further properties of the program *)

(** ** [split] and comma-separated rows *)

(** Whether a character occurs in a string. *)
Fixpoint occurs (c : ascii) (s : string) : bool :=
  match s with
  | EmptyString => false
  | String a rest => Ascii.eqb a c || occurs c rest
  end.

(** Fields written one after the other with [delimiter] between them, as
    [saveImpactResults] writes the fields of a row. *)
Fixpoint join_tail (delimiter : ascii) (fields : list string) : string :=
  match fields with
  | [] => EmptyString
  | f :: rest => String delimiter (f ++ join_tail delimiter rest)
  end.

Definition join (delimiter : ascii) (fields : list string) : string :=
  match fields with
  | [] => EmptyString
  | f :: rest => f ++ join_tail delimiter rest
  end.

(** The fields without a final empty one. *)
Fixpoint drop_last_empty (fields : list string) : list string :=
  match fields with
  | [] => []
  | f :: rest =>
      match rest with
      | [] => if String.eqb f EmptyString then [] else [f]
      | _ :: _ => f :: drop_last_empty rest
      end
  end.

Lemma append_empty_r (s : string) : (s ++ EmptyString)%string = s.
Proof. induction s as [|c s IH]; simpl; [reflexivity | now rewrite IH]. Qed.

Lemma append_char_assoc (s t : string) (c : ascii) :
  ((s ++ String c EmptyString) ++ t)%string = (s ++ String c t)%string.
Proof. induction s as [|a s IH]; simpl; [reflexivity | now rewrite IH]. Qed.

Lemma occurs_append (c : ascii) (s t : string) :
  occurs c (s ++ t) = occurs c s || occurs c t.
Proof.
  induction s as [|a s IH]; simpl; [reflexivity|].
  now rewrite IH, orb_assoc.
Qed.

Lemma split_from_field_then_delimiter (d : ascii) (f : string) :
  occurs d f = false ->
  forall token rest,
    split_from token (f ++ String d rest) d
    = (token ++ f)%string :: split_from EmptyString rest d.
Proof.
  induction f as [|c f IH]; intros Hf token rest; simpl.
  - rewrite Ascii.eqb_refl. now rewrite append_empty_r.
  - simpl in Hf. apply orb_false_elim in Hf as [Hc Hf].
    rewrite Hc, (IH Hf). now rewrite append_char_assoc.
Qed.

Lemma split_from_last_field (d : ascii) (f : string) :
  occurs d f = false ->
  forall token,
    split_from token f d
    = if String.eqb (token ++ f) EmptyString then [] else [(token ++ f)%string].
Proof.
  induction f as [|c f IH]; intros Hf token; simpl.
  - now rewrite append_empty_r.
  - simpl in Hf. apply orb_false_elim in Hf as [Hc Hf].
    rewrite Hc, (IH Hf). now rewrite append_char_assoc.
Qed.

Lemma split_from_join (d : ascii) (rest : list string) :
  Forall (fun f => occurs d f = false) rest ->
  forall token f,
    occurs d f = false ->
    split_from token (f ++ join_tail d rest) d
    = drop_last_empty ((token ++ f)%string :: rest).
Proof.
  induction 1 as [|x rest Hx _ IH]; intros token f Hf.
  - cbn [join_tail drop_last_empty]. rewrite append_empty_r.
    now apply split_from_last_field.
  - cbn [join_tail]. rewrite split_from_field_then_delimiter by exact Hf.
    rewrite (IH EmptyString x Hx). reflexivity.
Qed.

Lemma split_from_no_delimiter (d : ascii) (str : string) :
  forall token,
    occurs d token = false ->
    Forall (fun f => occurs d f = false) (split_from token str d).
Proof.
  induction str as [|c str IH]; intros token Ht; simpl.
  - destruct (String.eqb token EmptyString); repeat constructor; exact Ht.
  - destruct (Ascii.eqb c d) eqn:E.
    + constructor; [exact Ht | now apply IH].
    + apply IH. rewrite occurs_append. simpl. now rewrite Ht, E.
Qed.

(** X1. No token returned by [split] contains the delimiter, and [split]
    undoes the joining of delimiter-free fields, except that one final
    empty field is lost: a row that ends with the delimiter has one token
    fewer than fields. *)
Theorem split_inverts_join :
  forall (delimiter : ascii),
    (forall str, Forall (fun f => occurs delimiter f = false) (split str delimiter))
    /\ (forall fields,
          Forall (fun f => occurs delimiter f = false) fields ->
          split (join delimiter fields) delimiter = drop_last_empty fields).
Proof.
  intros d. split.
  - intros str. now apply split_from_no_delimiter.
  - intros fields H. destruct H as [|f rest Hf Hrest]; [reflexivity|].
    unfold split, join. now rewrite split_from_join.
Qed.

Lemma split_inverts_join_on_three_fields :
  split (join "," ["10"; "0.01"; "100"]) "," = ["10"; "0.01"; "100"]
  /\ split (join "," ["10"; "0.01"; EmptyString]) "," = ["10"; "0.01"].
Proof.
  split.
  - apply (proj2 (split_inverts_join ",") ["10"; "0.01"; "100"]).
    repeat constructor.
  - apply (proj2 (split_inverts_join ",") ["10"; "0.01"; EmptyString]).
    repeat constructor.
Defined.

(** ** [loadData]: files of a symbol's folder *)

(** What [loadData] sees of an entry of the folder: the file name and the
    extension that [entry.path()] reports, and the lines of the file
    ([None] when the stream does not open). *)
Record dir_entry : Type := mkEntry {
  entry_filename : string;
  entry_extension : string;
  entry_lines : option (list string)
}.

(** [filename.find('_')] and [filename.substr(pos + 1, 10)]; the date stays
    empty when there is no underscore. *)
Definition file_date (filename : string) : string :=
  match String.index 0 "_" filename with
  | Some pos => String.substring (pos + 1) 10 filename
  | None => EmptyString
  end.

Section Files.

Context {D : Type} {DD : Double D}.
Variable stod : string -> option D.
Variable stoi : string -> option Z.

(** The loop over the directory entries (lines 200-272), entered with
    [files_loaded] files read and [snapshots] collected. *)
Fixpoint load_files (entries : list dir_entry) (max_files files_loaded : Z)
    (snapshots : list (OrderBookSnapshot D)) : list (OrderBookSnapshot D) :=
  match entries with
  | [] => snapshots
  | entry :: rest =>
      if files_loaded >=? max_files then snapshots
      else if String.eqb (entry_extension entry) ".csv" then
        match entry_lines entry with
        | None => load_files rest max_files files_loaded snapshots
        | Some lines =>
            (* the first line is the header *)
            load_files rest max_files (files_loaded + 1)
              (load_rows stod stoi (file_date (entry_filename entry))
                 (tl lines) 0 snapshots)
        end
      else load_files rest max_files files_loaded snapshots
  end.

(** [loadData(symbol, max_files)] on a folder with the given entries: the
    returned flag and the map [data] afterwards.  Reading [data[symbol]]
    of a symbol never stored gives the empty vector. *)
Definition loadData (data : string -> list (OrderBookSnapshot D))
    (entries : list dir_entry) (symbol : string) (max_files : Z)
  : bool * (string -> list (OrderBookSnapshot D)) :=
  match load_files entries max_files 0 [] with
  | [] => (false, data)
  | snapshots =>
      (true, fun s => if String.eqb s symbol then snapshots else data s)
  end.

(** The rows of a list of lines that [parse_row] accepts, in order. *)
Definition parsed_rows (file_date : string) (lines : list string)
  : list (OrderBookSnapshot D) :=
  flat_map (fun line =>
              match parse_row stod stoi file_date line with
              | Some snapshot => [snapshot]
              | None => []
              end) lines.

(** The entries [loadData] reads: extension [.csv] and a stream that opens. *)
Definition readable_csv (entry : dir_entry) : bool :=
  String.eqb (entry_extension entry) ".csv"
  && match entry_lines entry with Some _ => true | None => false end.

Definition file_rows (entry : dir_entry) : list (OrderBookSnapshot D) :=
  match entry_lines entry with
  | Some lines =>
      firstn (Z.to_nat 10000)
        (parsed_rows (file_date (entry_filename entry)) (tl lines))
  | None => []
  end.

Lemma load_rows_firstn (file_date : string) (lines : list string) :
  forall (rows_loaded : Z) (snapshots : list (OrderBookSnapshot D)),
    load_rows stod stoi file_date lines rows_loaded snapshots
    = snapshots
      ++ firstn (Z.to_nat (10000 - rows_loaded)) (parsed_rows file_date lines).
Proof.
  induction lines as [|line lines IH]; intros n snapshots;
    unfold parsed_rows; cbn [load_rows flat_map].
  - now rewrite firstn_nil, app_nil_r.
  - fold (parsed_rows file_date lines).
    destruct (n <? 10000) eqn:En.
    + apply Z.ltb_lt in En.
      destruct (parse_row stod stoi file_date line) as [s|]; rewrite IH.
      * replace (Z.to_nat (10000 - n)) with (S (Z.to_nat (10000 - (n + 1)))) by lia.
        cbn [app firstn]. now rewrite <- app_assoc.
      * reflexivity.
    + apply Z.ltb_ge in En.
      replace (Z.to_nat (10000 - n)) with 0%nat by lia.
      now rewrite app_nil_r.
Qed.

(** X2. The rows of one file: [loadData] keeps the rows that parse, in file
    order, and stops after the first 10000 of them. *)
Theorem load_rows_keeps_first_10000 :
  forall (file_date : string) (lines : list string),
    load_rows stod stoi file_date lines 0 []
    = firstn (Z.to_nat 10000) (parsed_rows file_date lines)
    /\ Z.of_nat (List.length (load_rows stod stoi file_date lines 0 [])) <= 10000.
Proof.
  intros file_date lines. rewrite load_rows_firstn.
  replace (10000 - 0) with 10000 by lia. cbn [app]. split.
  - reflexivity.
  - pose proof (firstn_le_length (Z.to_nat 10000) (parsed_rows file_date lines)).
    lia.
Qed.

Lemma load_files_flat_map (entries : list dir_entry) (max_files : Z) :
  forall (files_loaded : Z) (snapshots : list (OrderBookSnapshot D)),
    load_files entries max_files files_loaded snapshots
    = snapshots
      ++ flat_map file_rows
           (firstn (Z.to_nat (max_files - files_loaded))
              (filter readable_csv entries)).
Proof.
  induction entries as [|e entries IH]; intros k snapshots; simpl.
  - now rewrite firstn_nil, app_nil_r.
  - destruct (k >=? max_files) eqn:Ek.
    + apply Z.geb_le in Ek.
      replace (Z.to_nat (max_files - k)) with 0%nat by lia.
      now rewrite app_nil_r.
    + rewrite Z.geb_leb in Ek. apply Z.leb_gt in Ek.
      unfold readable_csv at 1.
      destruct (String.eqb (entry_extension e) ".csv"); simpl; [|apply IH].
      destruct (entry_lines e) as [lines|] eqn:El; [|apply IH].
      rewrite IH.
      replace (Z.to_nat (max_files - k))
        with (S (Z.to_nat (max_files - (k + 1)))) by lia.
      cbn [firstn flat_map]. unfold file_rows at 2. rewrite El.
      rewrite load_rows_firstn. replace (10000 - 0) with 10000 by lia.
      cbn [flat_map]. now rewrite <- app_assoc.
Qed.

Lemma flat_map_length_le {A B : Type} (f : A -> list B) (bound : nat)
    (xs : list A) :
  (forall x, (List.length (f x) <= bound)%nat) ->
  (List.length (flat_map f xs) <= List.length xs * bound)%nat.
Proof.
  intros H. induction xs as [|x xs IH]; simpl; [lia|].
  rewrite length_app. specialize (H x). lia.
Qed.

Lemma file_rows_length (entry : dir_entry) :
  (List.length (file_rows entry) <= Z.to_nat 10000)%nat.
Proof.
  unfold file_rows. destruct (entry_lines entry); [|cbn [List.length]; lia].
  apply firstn_le_length.
Qed.

(** X3. The snapshots of a symbol are the rows of the first [max_files]
    entries that have extension [.csv] and open, in folder order, each file
    giving the first 10000 rows that parse after its header line; so there
    are at most [max_files * 10000] of them, and none when [max_files] is
    not positive. *)
Theorem load_files_reads_first_csv_files :
  forall (entries : list dir_entry) (max_files : Z),
    load_files entries max_files 0 []
    = flat_map file_rows
        (firstn (Z.to_nat max_files) (filter readable_csv entries))
    /\ (0 <= max_files ->
        Z.of_nat (List.length (load_files entries max_files 0 []))
        <= max_files * 10000)
    /\ (max_files <= 0 -> load_files entries max_files 0 [] = []).
Proof.
  intros entries max_files. rewrite load_files_flat_map.
  replace (max_files - 0) with max_files by lia. cbn [app].
  split; [reflexivity|]. split.
  - intros Hm.
    pose proof (flat_map_length_le file_rows (Z.to_nat 10000)
                  (firstn (Z.to_nat max_files) (filter readable_csv entries))
                  file_rows_length) as H1.
    pose proof (firstn_le_length (Z.to_nat max_files)
                  (filter readable_csv entries)) as H2.
    nia.
  - intros H. replace (Z.to_nat max_files) with 0%nat by lia. reflexivity.
Qed.

Lemma In_firstn {A : Type} (n : nat) (xs : list A) (x : A) :
  In x (firstn n xs) -> In x xs.
Proof.
  intros H. rewrite <- (firstn_skipn n xs). apply in_or_app. now left.
Qed.

Lemma load_files_In (entries : list dir_entry) (max_files : Z)
    (s : OrderBookSnapshot D) :
  In s (load_files entries max_files 0 []) ->
  exists entry lines line,
    In entry entries
    /\ entry_extension entry = ".csv"
    /\ entry_lines entry = Some lines
    /\ In line (tl lines)
    /\ parse_row stod stoi (file_date (entry_filename entry)) line = Some s.
Proof.
  rewrite load_files_flat_map. cbn [app]. intros H.
  apply in_flat_map in H as (entry & He & Hs).
  apply In_firstn in He. apply filter_In in He as [He Hr].
  unfold readable_csv in Hr. apply andb_true_iff in Hr as [Hext Hopen].
  apply String.eqb_eq in Hext.
  unfold file_rows in Hs.
  destruct (entry_lines entry) as [lines|] eqn:El; [|discriminate].
  apply In_firstn in Hs. unfold parsed_rows in Hs.
  apply in_flat_map in Hs as (line & Hl & Hs).
  destruct (parse_row stod stoi (file_date (entry_filename entry)) line)
    as [s'|] eqn:Ep; [|contradiction].
  destruct Hs as [<- | []].
  exists entry, lines, line. repeat split; assumption.
Qed.

Lemma parse_row_best_prices (file_date line : string) (s : OrderBookSnapshot D) :
  parse_row stod stoi file_date line = Some s ->
  date s = file_date
  /\ exists b bs a as',
       bids s = b :: bs /\ asks s = a :: as'
       /\ (of_int 0 <? price b)%D = true /\ (of_int 0 <? price a)%D = true.
Proof.
  intros H. pose proof (parse_row_ten_levels stod stoi _ _ _ H) as (Hlb & Hla & _).
  unfold parse_row in H.
  destruct (List.length (split line ",") <? 71)%nat; [discriminate|].
  destruct (parse_levels stod stoi (split line ",") (seq 0 10)
              (repeat empty_level 10, repeat empty_level 10))
    as [[bids1 asks1]|]; [|discriminate].
  destruct ((of_int 0 <? price (nth 0 bids1 empty_level))%D
            && (of_int 0 <? price (nth 0 asks1 empty_level))%D) eqn:E;
    [|discriminate].
  injection H as <-. cbn [bids asks date] in *.
  apply andb_true_iff in E as [Eb Ea].
  split; [reflexivity|].
  destruct bids1 as [|b bs]; [discriminate|].
  destruct asks1 as [|a as']; [discriminate|].
  exists b, bs, a, as'. repeat split; assumption.
Qed.

(** X4. Every snapshot [loadData] stores has a best bid and a best ask with
    positive prices, so [getMidPrice] and [getSpread] never take their
    fallback [0.0] on it: they return the mean and the difference of the two
    best prices; and its date is cut out of the name of a [.csv] file. *)
Theorem loaded_snapshots_have_best_prices :
  forall (entries : list dir_entry) (max_files : Z) (s : OrderBookSnapshot D),
    In s (load_files entries max_files 0 []) ->
    exists b bs a as',
      bids s = b :: bs /\ asks s = a :: as'
      /\ (of_int 0 <? price b)%D = true /\ (of_int 0 <? price a)%D = true
      /\ getMidPrice s = ((price b + price a) / of_int 2)%D
      /\ getSpread s = (price a - price b)%D
      /\ exists entry,
           In entry entries /\ entry_extension entry = ".csv"
           /\ date s = file_date (entry_filename entry).
Proof.
  intros entries max_files s H.
  destruct (load_files_In _ _ _ H) as (entry & lines & line & He & Hext & _ & _ & Hp).
  destruct (parse_row_best_prices _ _ _ Hp)
    as (Hd & b & bs & a & as' & Hb & Ha & Hpb & Hpa).
  exists b, bs, a, as'. repeat split; try assumption.
  - unfold getMidPrice. now rewrite Hb, Ha, Hpb, Hpa.
  - unfold getSpread. now rewrite Hb, Ha, Hpb, Hpa.
  - exists entry. repeat split; assumption.
Qed.

End Files.

(** ** [loadData]: the fields of a row *)

Section RowFields.

Context {D : Type} {DD : Double D}.
Variable stod : string -> option D.
Variable stoi : string -> option Z.

(** Entry [i] of one side holds the conversions of its two fields, [px] and
    [sz] being the columns of the side's first level. *)
Definition holds_fields (tokens : list string) (px sz i : nat)
    (levels : list (OrderBookLevel D)) : Prop :=
  (forall t, field tokens (px + 6 * i) = Some t ->
             stod t = Some (price (nth i levels empty_level)))
  /\ (forall t, field tokens (sz + 6 * i) = Some t ->
                stoi t = Some (size (nth i levels empty_level))).

Lemma nth_update_nth_same {A : Type} (f : A -> A) (d : A) (l : list A) :
  forall i, (i < List.length l)%nat -> nth i (update_nth i f l) d = f (nth i l d).
Proof.
  induction l as [|x l IH]; intros [|i] Hi; simpl in *; try lia.
  - reflexivity.
  - apply IH. lia.
Qed.

Lemma side_step_holds_fields (tokens : list string) (px sz j : nat)
    (l0 l1 l2 : list (OrderBookLevel D)) :
  assign_price stod tokens (px + 6 * j) j l0 = Some l1 ->
  assign_size stoi tokens (sz + 6 * j) j l1 = Some l2 ->
  (j < List.length l0)%nat ->
  holds_fields tokens px sz j l2.
Proof.
  unfold assign_price, assign_size. intros H1 H2 Hj.
  assert (Hlen : List.length l1 = List.length l0).
  { destruct (field tokens (px + 6 * j)) as [t|]; [|now injection H1 as <-].
    destruct (stod t); [|discriminate]. injection H1 as <-.
    apply update_nth_length. }
  split; intros t Ht.
  - rewrite Ht in H1. destruct (stod t) as [p|]; [|discriminate].
    injection H1 as <-. f_equal.
    assert (E : price (nth j l2 empty_level)
                = price (nth j (update_nth j (set_price p) l0) empty_level)).
    { destruct (field tokens (sz + 6 * j)) as [u|]; [|now injection H2 as <-].
      destruct (stoi u) as [n|]; [|discriminate]. injection H2 as <-.
      now apply (nth_update_nth_proj (set_size n) (@price D)). }
    rewrite E, nth_update_nth_same by exact Hj. reflexivity.
  - rewrite Ht in H2. destruct (stoi t) as [n|]; [|discriminate].
    injection H2 as <-. f_equal.
    rewrite nth_update_nth_same by lia. reflexivity.
Qed.

Lemma holds_fields_kept (tokens : list string) (px sz j : nat) (js : list nat)
    (l l' : list (OrderBookLevel D)) :
  ~ In j js ->
  left_alone tokens px sz js l l' ->
  holds_fields tokens px sz j l ->
  holds_fields tokens px sz j l'.
Proof.
  intros Hj [_ Halone] [Hp Hs]. destruct (Halone j) as [Ap As].
  split; intros t Ht.
  - rewrite Ap by now left. now apply Hp.
  - rewrite As by now left. now apply Hs.
Qed.

Lemma parse_levels_hold_fields (tokens : list string) (js : list nat) :
  NoDup js ->
  forall sides sides' : list (OrderBookLevel D) * list (OrderBookLevel D),
    parse_levels stod stoi tokens js sides = Some sides' ->
    Forall (fun j => (j < List.length (fst sides))%nat
                     /\ (j < List.length (snd sides))%nat) js ->
    Forall (fun j => holds_fields tokens 13 15 j (fst sides')
                     /\ holds_fields tokens 14 16 j (snd sides')) js.
Proof.
  induction 1 as [|j js Hj Hnd IH]; intros sides sides' H Hlen; [constructor|].
  cbn [parse_levels] in H.
  destruct (parse_level stod stoi tokens j sides) as [mid|] eqn:E; [|discriminate].
  inversion Hlen as [|? ? [Hjb Hja] Hlen']; subst.
  destruct (parse_level_alone stod stoi _ _ _ _ E) as [[Lb _] [La _]].
  destruct (parse_levels_alone stod stoi _ _ _ _ H) as [Ab Aa].
  constructor.
  - unfold parse_level in E.
    destruct (assign_price stod tokens (13 + 6 * j) j (fst sides)) as [b1|] eqn:E1;
      [|discriminate].
    destruct (assign_size stoi tokens (15 + 6 * j) j b1) as [b2|] eqn:E2;
      [|discriminate].
    destruct (assign_price stod tokens (14 + 6 * j) j (snd sides)) as [a1|] eqn:E3;
      [|discriminate].
    destruct (assign_size stoi tokens (16 + 6 * j) j a1) as [a2|] eqn:E4;
      [|discriminate].
    injection E as <-. cbn [fst snd] in *. split.
    + eapply holds_fields_kept; [exact Hj | exact Ab |].
      eapply side_step_holds_fields; eassumption.
    + eapply holds_fields_kept; [exact Hj | exact Aa |].
      eapply side_step_holds_fields; eassumption.
  - apply (IH mid sides' H).
    rewrite Forall_forall in *. intros k Hk. rewrite Lb, La. now apply Hlen'.
Qed.

Lemma parse_row_fields (file_date line : string) (s : OrderBookSnapshot D) :
  parse_row stod stoi file_date line = Some s ->
  forall i, (i < 10)%nat ->
    holds_fields (split line ",") 13 15 i (bids s)
    /\ holds_fields (split line ",") 14 16 i (asks s).
Proof.
  intros H i Hi. unfold parse_row in H.
  destruct (List.length (split line ",") <? 71)%nat; [discriminate|].
  destruct (parse_levels stod stoi (split line ",") (seq 0 10)
              (repeat empty_level 10, repeat empty_level 10))
    as [[bids1 asks1]|] eqn:E; [|discriminate].
  destruct ((of_int 0 <? price (nth 0 bids1 empty_level))%D
            && (of_int 0 <? price (nth 0 asks1 empty_level))%D); [|discriminate].
  injection H as <-. cbn [bids asks].
  pose proof (parse_levels_hold_fields _ _ (seq_NoDup 10 0) _ _ E) as HF.
  cbn [fst snd] in HF. rewrite !repeat_length in HF.
  assert (Hall : Forall (fun j => (j < 10)%nat /\ (j < 10)%nat) (seq 0 10)).
  { apply Forall_forall. intros j Hj. apply in_seq in Hj. lia. }
  specialize (HF Hall). rewrite Forall_forall in HF.
  apply HF. apply in_seq. lia.
Qed.

(** X5. In a row that [loadData] keeps, every non-empty price or size field
    of the ten levels converts, and entry [i] of each side holds the
    converted values of columns [13 + 6i] (bid price), [15 + 6i] (bid
    size), [14 + 6i] (ask price) and [16 + 6i] (ask size). *)
Theorem kept_row_holds_converted_fields :
  forall (file_date line : string) (s : OrderBookSnapshot D),
    parse_row stod stoi file_date line = Some s ->
    forall i t, (i < 10)%nat ->
      let tokens := split line "," in
      (field tokens (13 + 6 * i) = Some t ->
       stod t = Some (price (nth i (bids s) empty_level)))
      /\ (field tokens (15 + 6 * i) = Some t ->
          stoi t = Some (size (nth i (bids s) empty_level)))
      /\ (field tokens (14 + 6 * i) = Some t ->
          stod t = Some (price (nth i (asks s) empty_level)))
      /\ (field tokens (16 + 6 * i) = Some t ->
          stoi t = Some (size (nth i (asks s) empty_level))).
Proof.
  intros file_date line s H i t Hi tokens. subst tokens.
  destruct (parse_row_fields _ _ _ H i Hi) as [[Hbp Hbs] [Hap Has]].
  repeat split; intros Hf; auto.
Qed.

(** X6. A row is skipped when it has fewer than 71 fields, and when a
    non-empty price or size field of one of its ten levels does not
    convert (the exception thrown by [std::stod] or [std::stoi] is caught
    and the row dropped). *)
Theorem unconvertible_row_is_skipped :
  forall (file_date line : string),
    let tokens := split line "," in
    ((List.length tokens < 71)%nat ->
     parse_row stod stoi file_date line = None)
    /\ (forall i t, (i < 10)%nat ->
          (field tokens (13 + 6 * i) = Some t /\ stod t = None)
          \/ (field tokens (15 + 6 * i) = Some t /\ stoi t = None)
          \/ (field tokens (14 + 6 * i) = Some t /\ stod t = None)
          \/ (field tokens (16 + 6 * i) = Some t /\ stoi t = None) ->
          parse_row stod stoi file_date line = None).
Proof.
  intros file_date line tokens. subst tokens. split.
  - intros Hlen. unfold parse_row.
    apply Nat.ltb_lt in Hlen. now rewrite Hlen.
  - intros i t Hi Hbad.
    destruct (parse_row stod stoi file_date line) as [s|] eqn:E; [|reflexivity].
    exfalso.
    destruct (parse_row_fields _ _ _ E i Hi) as [[Hbp Hbs] [Hap Has]].
    destruct Hbad as [[Hf Hc] | [[Hf Hc] | [[Hf Hc] | [Hf Hc]]]].
    + specialize (Hbp t Hf). congruence.
    + specialize (Hbs t Hf). congruence.
    + specialize (Hap t Hf). congruence.
    + specialize (Has t Hf). congruence.
Qed.

End RowFields.

(** ** More on the walk and the curve *)

Section WalkAndCurve.

Context {D : Type} {DD : Double D}.

Lemma consume_stops_at_invalid (pre : list (OrderBookLevel D))
    (l : OrderBookLevel D) (post : list (OrderBookLevel D)) :
  (price l <=? of_int 0)%D || (size l <=? 0) = true ->
  forall st, consume (pre ++ l :: post) st = consume pre st.
Proof.
  intros Hl. induction pre as [|x pre IH]; intros st; simpl.
  - destruct (remaining st <=? 0); simpl; [reflexivity|].
    apply orb_true_iff in Hl as [Hl|Hl]; rewrite Hl; simpl;
      [reflexivity | now rewrite orb_true_r].
  - destruct ((remaining st <=? 0) || (price x <=? of_int 0)%D || (size x <=? 0));
      [reflexivity | apply IH].
Qed.

(** X7. The walk never reads past the first invalid level: whatever follows
    a level with [price <= 0] or [size <= 0] has no effect on the result.
    In particular the zero-filled entries that [loadData] leaves after the
    last level of a row change no simulation. *)
Theorem levels_after_invalid_are_ignored :
  (forall (pre post : list (OrderBookLevel D)) (l : OrderBookLevel D)
          (st : walk_state D),
      (price l <=? of_int 0)%D || (size l <=? 0) = true ->
      consume (pre ++ l :: post) st = consume pre st)
  /\ (forall (levels : list (OrderBookLevel D)) (n : nat) (st : walk_state D),
        consume (levels ++ repeat empty_level n) st = consume levels st).
Proof.
  split.
  - intros pre post l st Hl. now apply consume_stops_at_invalid.
  - intros levels [|n] st; simpl.
    + now rewrite app_nil_r.
    + apply consume_stops_at_invalid. simpl. now rewrite dleb_zero.
Qed.

(** X8. The filled quantity is the smaller of the order size and the depth
    before the first invalid level, and what is left is the difference: an
    order is filled completely exactly when it fits in that depth, and is
    otherwise filled partially with the whole of it. *)
Theorem fill_is_order_or_valid_depth :
  forall (snapshot : OrderBookSnapshot D) (side : string) (quantity : Z),
    0 <= quantity ->
    let st := execute snapshot side quantity in
    let depth := valid_depth (consumed_side snapshot side) in
    total_shares st = Z.min quantity depth
    /\ remaining st = quantity - total_shares st
    /\ (remaining st = 0 <-> quantity <= depth)
    /\ (depth < quantity -> total_shares st = depth).
Proof.
  intros snapshot side q Hq st depth. subst st depth.
  pose proof (filled_quantity_closed_form snapshot side q) as Hf.
  unfold filled_quantity, simulate in Hf. cbn [fst] in Hf.
  destruct (execute_fills snapshot side q Hq) as (_ & Hs & Hr).
  pose proof (valid_depth_nonneg (consumed_side snapshot side)).
  rewrite Hr, <- Hs, Hf. lia.
Qed.

(** *** The same snapshots contribute at every size *)

Lemma contributes_any_size (side : string) (os : Z) (s : OrderBookSnapshot D) :
  0 < os ->
  contributes side os s
  = (of_int 0 <? getMidPrice s)%D && (0 <? valid_depth (consumed_side s side)).
Proof.
  intros Hos. unfold contributes. rewrite filled_quantity_closed_form.
  pose proof (valid_depth_nonneg (consumed_side s side)).
  f_equal. destruct (0 <? valid_depth (consumed_side s side)) eqn:E.
  - apply Z.ltb_lt in E. apply Z.ltb_lt. lia.
  - apply Z.ltb_ge in E. apply Z.ltb_ge. lia.
Qed.

Lemma contributors_any_size (snapshots : list (OrderBookSnapshot D))
    (side : string) (os1 os2 : Z) :
  0 < os1 -> 0 < os2 ->
  filter (contributes side os1) snapshots = filter (contributes side os2) snapshots.
Proof.
  intros H1 H2. apply filter_ext. intros s.
  now rewrite !contributes_any_size.
Qed.

Lemma has_aggregate_any_size (snapshots : list (OrderBookSnapshot D))
    (side : string) (os1 os2 : Z) :
  0 < os1 -> 0 < os2 ->
  has_aggregate snapshots side os1 = has_aggregate snapshots side os2.
Proof.
  intros H1 H2. unfold has_aggregate, accumulated_impacts.
  rewrite (contributors_any_size snapshots side os1 os2 H1 H2).
  destruct (filter (contributes side os2) snapshots); reflexivity.
Qed.

Lemma filter_constant {A : Type} (f : A -> bool) (b : bool) (xs : list A) :
  (forall x, In x xs -> f x = b) ->
  filter f xs = if b then xs else [].
Proof.
  induction xs as [|x xs IH]; intros H; simpl.
  - now destruct b.
  - rewrite (H x) by now left. rewrite IH by (intros y Hy; apply H; now right).
    now destruct b.
Qed.

Lemma requested_sizes_positive (max_shares os : Z) :
  In os (requested_sizes max_shares) -> 0 < os.
Proof.
  intros H. apply requested_sizes_In in H as (k & Hk & -> & _). lia.
Qed.

Lemma curve_full_or_empty (snapshots : list (OrderBookSnapshot D))
    (side : string) (max_shares : Z) :
  map (@order_size D) (calculateTemporaryImpact snapshots side max_shares)
  = requested_sizes max_shares
  \/ calculateTemporaryImpact snapshots side max_shares = [].
Proof.
  rewrite calculateTemporaryImpact_spec.
  destruct (has_aggregate snapshots side 10) eqn:E.
  - left. rewrite order_sizes_of_samples.
    rewrite (filter_constant _ true); [reflexivity|].
    intros os Hos. rewrite <- E.
    apply has_aggregate_any_size; [now apply (requested_sizes_positive max_shares) | lia].
  - right. apply flat_map_all_nil. intros os.
    destruct (Z_lt_le_dec 0 os) as [Hos|Hos].
    + rewrite (has_aggregate_any_size snapshots side 10 os) in E by lia.
      unfold has_aggregate in E. unfold samples_at.
      now destruct (accumulated_impacts snapshots side os).
    + unfold samples_at, accumulated_impacts.
      replace (filter (contributes side os) snapshots) with (@nil (OrderBookSnapshot D));
        [reflexivity|].
      symmetry. rewrite (filter_constant _ false); [reflexivity|].
      intros s _. unfold contributes. rewrite filled_quantity_closed_form.
      replace (0 <? Z.min (Z.max 0 os) (valid_depth (consumed_side s side)))
        with false by (symmetry; apply Z.ltb_ge; lia).
      apply andb_false_r.
Qed.

(** X9. The curve has no gaps inside the sweep: the snapshots that
    contribute are the same at every positive order size (those with a
    positive mid-price and a valid best level on the consumed side), so for
    [max_shares < 2147483640], where the counter of the sweep does not
    overflow, the call returns a curve that either has a sample at every
    size 10, 20, ... up to [max_shares], or is empty. *)
Theorem curve_is_full_or_empty :
  forall (snapshots : list (OrderBookSnapshot D)) (side : string) (max_shares : Z),
    (forall os1 os2, 0 < os1 -> 0 < os2 ->
       filter (contributes side os1) snapshots
       = filter (contributes side os2) snapshots)
    /\ (max_shares < 2147483640 ->
        exists curve,
          calculateTemporaryImpact_returns snapshots side max_shares curve
          /\ (map (@order_size D) curve = requested_sizes max_shares
              \/ curve = [])).
Proof.
  intros snapshots side max_shares. split.
  - intros os1 os2. apply contributors_any_size.
  - intros Hmax. exists (calculateTemporaryImpact snapshots side max_shares).
    split; [now apply calculateTemporaryImpact_in_range|].
    apply curve_full_or_empty.
Qed.

(** X10. Raising [max_shares] only appends samples: as long as the larger
    maximum is below 2147483640, where the counter of the sweep does not
    overflow, both calls return, and the curve for the smaller maximum is a
    prefix of the curve for the larger one. *)
Theorem larger_max_shares_extends_curve :
  forall (snapshots : list (OrderBookSnapshot D)) (side : string)
         (max1 max2 : Z),
    max1 <= max2 -> max2 < 2147483640 ->
    exists curve more,
      calculateTemporaryImpact_returns snapshots side max1 curve
      /\ calculateTemporaryImpact_returns snapshots side max2 (curve ++ more).
Proof.
  intros snapshots side max1 max2 Hle Hmax.
  pose proof (calculateTemporaryImpact_in_range snapshots side max1 ltac:(lia)) as R1.
  pose proof (calculateTemporaryImpact_in_range snapshots side max2 Hmax) as R2.
  assert (E : exists more,
             calculateTemporaryImpact snapshots side max2
             = calculateTemporaryImpact snapshots side max1 ++ more).
  { rewrite !calculateTemporaryImpact_spec, !requested_sizes_unfold.
    set (n1 := Z.to_nat ((max1 + 10 - 10) / 10)).
    set (n2 := Z.to_nat ((max2 + 10 - 10) / 10)).
    assert (Hn : (n1 <= n2)%nat).
    { subst n1 n2.
      assert ((max1 + 10 - 10) / 10 <= (max2 + 10 - 10) / 10)
        by (apply Z.div_le_mono; lia).
      lia. }
    replace n2 with (n1 + (n2 - n1))%nat by lia.
    rewrite seq_app, map_app, flat_map_app. eexists. reflexivity. }
  destruct E as [more E].
  exists (calculateTemporaryImpact snapshots side max1), more.
  split; [exact R1|]. rewrite <- E. exact R2.
Qed.

End WalkAndCurve.

(** ** More in exact arithmetic *)

(** The quantity-weighted sum of [g] over the fills of a walk; with [g] the
    price it is the cost of the walk. *)
Definition weighted_sum (g : OrderBookLevel Q -> Q)
    (fs : list (Z * OrderBookLevel Q)) : Q :=
  fold_right (fun f acc => (inject_Z (fst f) * g (snd f) + acc)%Q) 0%Q fs.

(** The consumed prices are in best-first order for the side: not
    decreasing on the ask side that a buy walks, not increasing on the bid
    side that any other order walks. *)
Definition best_first (side : string) (snapshot : OrderBookSnapshot Q)
    (quantity : Z) : Prop :=
  if String.eqb side "buy"
  then StronglySorted Qle (consumed_prices (asks snapshot) quantity)
  else StronglySorted (fun x y => (y <= x)%Q) (consumed_prices (bids snapshot) quantity).

Section ExactMore.

Open Scope Q_scope.

Lemma consume_within_best_level (l : OrderBookLevel Q)
    (rest : list (OrderBookLevel Q)) (q : Z) :
  (0 < q <= size l)%Z -> 0 < price l ->
  consume (l :: rest)
    {| total_cost := of_int 0; total_shares := 0; remaining := q |}
  = {| total_cost := (of_int 0 + of_int q * price l)%D;
       total_shares := q; remaining := 0 |}.
Proof.
  intros [Hq Hs] Hp. cbn [consume remaining total_cost total_shares].
  replace (q <=? 0)%Z with false by (symmetry; apply Z.leb_gt; lia).
  replace (size l <=? 0)%Z with false by (symmetry; apply Z.leb_gt; lia).
  replace (price l <=? of_int 0)%D with false
    by (symmetry; apply Qle_bool_false; exact Hp).
  cbn [orb]. rewrite Z.min_l by lia.
  replace (q - q)%Z with 0%Z by lia. replace (0 + q)%Z with q by lia.
  destruct rest as [|x rest]; reflexivity.
Qed.

(** X11. In exact arithmetic, an order that fits in the best level of the
    side it consumes has an impact of half the relative spread,
    [getSpread / (2 * getMidPrice)], whether it buys or sells and whatever
    its size within that level. *)
Theorem impact_within_best_level_is_half_spread :
  forall (snapshot : OrderBookSnapshot Q) (b a : OrderBookLevel Q)
         (bs as' : list (OrderBookLevel Q)) (quantity : Z),
    bids snapshot = b :: bs -> asks snapshot = a :: as' ->
    0 < price b -> 0 < price a -> (0 < quantity)%Z ->
    ((quantity <= size a)%Z ->
     exists impact,
       snapshot_impact snapshot "buy" quantity = Some impact
       /\ impact == getSpread snapshot / (2 * getMidPrice snapshot))
    /\ ((quantity <= size b)%Z ->
        exists impact,
          snapshot_impact snapshot "sell" quantity = Some impact
          /\ impact == getSpread snapshot / (2 * getMidPrice snapshot)).
Proof.
  intros snapshot b a bs as' q Hb Ha Hpb Hpa Hq.
  assert (Emid : getMidPrice snapshot = (price b + price a) / inject_Z 2).
  { unfold getMidPrice. rewrite Hb, Ha.
    replace (of_int 0 <? price b)%D with true by (symmetry; now apply Qltb_lt).
    replace (of_int 0 <? price a)%D with true by (symmetry; now apply Qltb_lt).
    reflexivity. }
  assert (Espread : getSpread snapshot = price a - price b).
  { unfold getSpread. rewrite Hb, Ha.
    replace (of_int 0 <? price b)%D with true by (symmetry; now apply Qltb_lt).
    replace (of_int 0 <? price a)%D with true by (symmetry; now apply Qltb_lt).
    reflexivity. }
  assert (Hmid : 0 < (price b + price a) / inject_Z 2).
  { apply Qlt_shift_div_l; [reflexivity | lra]. }
  assert (Hqq : ~ inject_Z q == 0).
  { intros E. assert (0 < inject_Z q)
      by (change 0 with (inject_Z 0); now rewrite <- Zlt_Qlt).
    lra. }
  assert (Etest : dleb ((price b + price a) / inject_Z 2) (of_int 0) = false)
    by (apply Qle_bool_false; exact Hmid).
  split; intros Hfit.
  - unfold snapshot_impact, simulate, execute, avg_price, impact_of.
    rewrite Emid, Espread.
    rewrite Etest.
    cbn [String.eqb Ascii.eqb Bool.eqb]. rewrite Ha.
    rewrite (consume_within_best_level a as' q) by (auto; lia).
    cbn [total_shares total_cost].
    replace (0 <? q)%Z with true by (symmetry; apply Z.ltb_lt; lia).
    eexists. split; [reflexivity|].
    cbn [ddiv dsub dadd dmul of_int Double_exact].
    change (inject_Z 2) with 2. change (inject_Z 0) with 0.
    field. split; [lra | exact Hqq].
  - unfold snapshot_impact, simulate, execute, avg_price, impact_of.
    rewrite Emid, Espread.
    rewrite Etest.
    cbn [String.eqb Ascii.eqb Bool.eqb]. rewrite Hb.
    rewrite (consume_within_best_level b bs q) by (auto; lia).
    cbn [total_shares total_cost].
    replace (0 <? q)%Z with true by (symmetry; apply Z.ltb_lt; lia).
    eexists. split; [reflexivity|].
    cbn [ddiv dsub dadd dmul of_int Double_exact].
    change (inject_Z 2) with 2. change (inject_Z 0) with 0.
    field. split; [lra | exact Hqq].
Qed.

End ExactMore.

(** *** Larger orders pay no better *)

Section ExactMonotone.

Open Scope Q_scope.

Variable g : OrderBookLevel Q -> Q.

Lemma fold_cost_weighted (fs : list (Z * OrderBookLevel Q)) :
  forall c,
    fold_left (fun cost f => (cost + of_int (fst f) * price (snd f))%D) fs c
    == c + weighted_sum (@price Q) fs.
Proof.
  induction fs as [|f fs IH]; intros c; simpl.
  - ring.
  - rewrite IH. ring.
Qed.

Lemma filled_cons_Q (f : Z * OrderBookLevel Q) (fs : list (Z * OrderBookLevel Q)) :
  inject_Z (fills_filled (f :: fs))
  == inject_Z (fst f) + inject_Z (fills_filled fs).
Proof. rewrite fills_filled_cons, inject_Z_plus. reflexivity. Qed.

Lemma weighted_sum_lower (lo : Q) (fs : list (Z * OrderBookLevel Q)) :
  Forall (fun f => (0 < fst f)%Z /\ lo <= g (snd f)) fs ->
  lo * inject_Z (fills_filled fs) <= weighted_sum g fs.
Proof.
  induction 1 as [|f fs [Ht Hlo] _ IH].
  - unfold fills_filled. simpl. change (inject_Z 0) with 0. lra.
  - rewrite filled_cons_Q. simpl.
    assert (Hpos : 0 < inject_Z (fst f))
      by (change 0 with (inject_Z 0); now rewrite <- Zlt_Qlt).
    assert (lo * inject_Z (fst f) <= inject_Z (fst f) * g (snd f))
      by (rewrite (Qmult_comm lo); now apply Qmult_le_l).
    lra.
Qed.

Lemma fills_weighted_sum_lower (levels : list (OrderBookLevel Q)) (lo : Q) (q : Z) :
  (0 <= q)%Z ->
  Forall (fun f => lo <= g (snd f)) (fills levels q) ->
  lo * inject_Z (fills_filled (fills levels q)) <= weighted_sum g (fills levels q).
Proof.
  intros Hq Hlo. apply weighted_sum_lower.
  destruct (fills_takes levels q Hq) as [Ht _].
  rewrite Forall_forall in *. intros f Hf. split.
  - apply (Ht f Hf).
  - apply (Hlo f Hf).
Qed.

Lemma fills_nothing_left (levels : list (OrderBookLevel Q)) :
  fills levels 0 = [].
Proof. destruct levels; reflexivity. Qed.

(** Between two order sizes, the additional quantity is bought at prices
    (measured by [g]) that are at least [hi], while the smaller order paid
    at most [hi] per share. *)
Lemma incremental_weighted_sum (levels : list (OrderBookLevel Q)) :
  forall (lo : Q) (q1 q2 : Z),
    (0 <= q1 <= q2)%Z ->
    StronglySorted Qle (map (fun f => g (snd f)) (fills levels q2)) ->
    Forall (fun f => lo <= g (snd f)) (fills levels q2) ->
    exists hi,
      lo <= hi
      /\ weighted_sum g (fills levels q1)
         <= hi * inject_Z (fills_filled (fills levels q1))
      /\ hi * (inject_Z (fills_filled (fills levels q2))
               - inject_Z (fills_filled (fills levels q1)))
         <= weighted_sum g (fills levels q2) - weighted_sum g (fills levels q1)
      /\ (fills_filled (fills levels q1) <= fills_filled (fills levels q2))%Z.
Proof.
  induction levels as [|l rest IH]; intros lo q1 q2 Hq Hsorted Hlo.
  - exists lo. simpl. unfold fills_filled. simpl. change (inject_Z 0) with 0.
    split; [lra|]. split; [lra|]. split; [lra | apply Z.le_refl].
  - pose proof (fills_weighted_sum_lower (l :: rest) lo q2 ltac:(lia) Hlo) as LB2.
    destruct (fills_takes (l :: rest) q2 ltac:(lia)) as [_ HF2].
    cbn [fills] in *.
    destruct ((price l <=? of_int 0)%D || (size l <=? 0)%Z) eqn:Einv.
    { rewrite !orb_true_r. exists lo. unfold fills_filled. simpl.
      change (inject_Z 0) with 0.
      split; [lra|]. split; [lra|]. split; [lra | apply Z.le_refl]. }
    rewrite !orb_false_r in *.
    destruct (q1 =? 0)%Z eqn:E1.
    { exists lo. split; [lra|].
      change (fills_filled (@nil (Z * OrderBookLevel Q))) with 0%Z.
      change (weighted_sum g []) with 0. change (inject_Z 0) with 0.
      split; [lra|]. split; [lra | lia]. }
    apply Z.eqb_neq in E1.
    replace (q2 =? 0)%Z with false in * by (symmetry; apply Z.eqb_neq; lia).
    apply orb_false_elim in Einv as [_ Hsize]. apply Z.leb_gt in Hsize.
    cbn [map fst snd] in Hsorted.
    inversion Hsorted as [|? ? Hsorted' Hhead]; subst.
    inversion Hlo as [|? ? Hlo_l Hlo']; subst. cbn [snd] in Hlo_l.
    rewrite Forall_map in Hhead.
    set (t2 := Z.min q2 (size l)) in *.
    assert (Hsize_pos : 0 < inject_Z (size l))
      by (change 0 with (inject_Z 0); now rewrite <- Zlt_Qlt).
    destruct (Z_le_gt_dec q1 (size l)) as [Hfit|Hover].
    + rewrite (Z.min_l q1 (size l)) by lia.
      replace (q1 - q1)%Z with 0%Z by lia. rewrite fills_nothing_left.
      exists (g l). split; [exact Hlo_l|].
      pose proof (fills_weighted_sum_lower rest (g l) (q2 - t2)
                    ltac:(subst t2; lia) Hhead) as LBrest.
      destruct (fills_takes rest (q2 - t2) ltac:(subst t2; lia)) as [_ HFrest].
      rewrite !filled_cons_Q. cbn [weighted_sum fold_right fst snd].
      fold (weighted_sum g (fills rest (q2 - t2))).
      unfold fills_filled at 1 3. cbn [fold_left].
      change (inject_Z 0) with 0.
      repeat split; try lra.
      rewrite !fills_filled_cons. cbn [fst]. unfold fills_filled at 1.
      cbn [fold_left]. subst t2. lia.
    + subst t2. rewrite (Z.min_r q1 (size l)), (Z.min_r q2 (size l)) in * by lia.
      destruct (IH (g l) (q1 - size l)%Z (q2 - size l)%Z ltac:(lia) Hsorted' Hhead)
        as (hi & Hhi & H1 & H2 & H3).
      exists hi. split; [lra|].
      rewrite !filled_cons_Q. cbn [weighted_sum fold_right fst snd].
      fold (weighted_sum g (fills rest (q1 - size l))).
      fold (weighted_sum g (fills rest (q2 - size l))).
      assert (inject_Z (size l) * g l <= hi * inject_Z (size l))
        by (rewrite (Qmult_comm hi); now apply Qmult_le_l).
      repeat split; try lra.
      rewrite !fills_filled_cons. cbn [fst]. lia.
Qed.

End ExactMonotone.

Section ExactCurve.

Open Scope Q_scope.

Lemma ratio_monotone (c1 c2 f1 f2 hi : Q) :
  0 < f1 -> f1 <= f2 -> c1 <= hi * f1 -> hi * (f2 - f1) <= c2 - c1 ->
  c1 / f1 <= c2 / f2.
Proof.
  intros Hf1 Hf Hc1 Hinc.
  assert (Hf2 : 0 < f2) by lra.
  apply Qle_shift_div_l; [exact Hf2|].
  set (r := c1 / f1).
  assert (Hr : r <= hi) by (apply Qle_shift_div_r; lra).
  assert (Er : r * f1 == c1) by (unfold r; field; lra).
  assert (Hstep : r * (f2 - f1) <= hi * (f2 - f1))
    by (apply Qmult_le_compat_r; lra).
  lra.
Qed.

Lemma weighted_sum_opp (fs : list (Z * OrderBookLevel Q)) :
  weighted_sum (fun l => - price l) fs == - weighted_sum (@price Q) fs.
Proof.
  induction fs as [|f fs IH]; simpl; [reflexivity|].
  rewrite IH. ring.
Qed.

Lemma decreasing_prices_opp (fs : list (Z * OrderBookLevel Q)) :
  StronglySorted (fun x y => y <= x) (map (fun f => price (snd f)) fs) ->
  StronglySorted Qle (map (fun f => - price (snd f)) fs).
Proof.
  induction fs as [|f fs IH]; simpl; intros H; [constructor|].
  inversion H as [|? ? Hs Hh]; subst. constructor; [now apply IH|].
  rewrite Forall_map in *. rewrite Forall_forall in *.
  intros x Hx. apply Qopp_le_compat. now apply Hh.
Qed.

Lemma fills_lower_bound (h : OrderBookLevel Q -> Q)
    (fs : list (Z * OrderBookLevel Q)) :
  exists lo, Forall (fun f => lo <= h (snd f)) fs.
Proof.
  induction fs as [|f fs [lo IH]].
  - exists 0. constructor.
  - exists (Qmin lo (h (snd f))). constructor; [apply Q.le_min_r|].
    rewrite Forall_forall in *. intros x Hx.
    eapply Qle_trans; [apply Q.le_min_l | now apply IH].
Qed.

(** The average price of a walk as a ratio of the weighted sum of prices. *)
Lemma avg_price_ratio (snapshot : OrderBookSnapshot Q) (side : string) (q : Z) :
  (0 <= q)%Z ->
  avg_price (execute snapshot side q)
  == weighted_sum (@price Q) (fills (consumed_side snapshot side) q)
     / inject_Z (fills_filled (fills (consumed_side snapshot side) q)).
Proof.
  intros Hq. unfold avg_price.
  destruct (execute_fills snapshot side q Hq) as (Hc & Hs & _).
  rewrite Hc, Hs. unfold fills_cost. cbn [ddiv of_int Double_exact].
  rewrite fold_cost_weighted.
  change (@of_int Q Double_exact 0%Z) with 0.
  rewrite Qplus_0_l. reflexivity.
Qed.

Lemma filled_positive_Q (snapshot : OrderBookSnapshot Q) (side : string) (q : Z) :
  (0 < filled_quantity snapshot side q)%Z ->
  (0 <= q)%Z
  /\ 0 < inject_Z (fills_filled (fills (consumed_side snapshot side) q)).
Proof.
  intros Hf.
  assert (Hq : (0 <= q)%Z) by (rewrite filled_quantity_closed_form in Hf; lia).
  split; [exact Hq|].
  destruct (execute_fills snapshot side q Hq) as (_ & Hs & _).
  unfold filled_quantity, simulate in Hf. cbn [fst] in Hf. rewrite Hs in Hf.
  change 0 with (inject_Z 0). now rewrite <- Zlt_Qlt.
Qed.

(** Average prices of two order sizes on a side in best-first order. *)
Lemma avg_price_monotone (snapshot : OrderBookSnapshot Q) (side : string)
    (q1 q2 : Z) :
  (q1 <= q2)%Z ->
  (0 < filled_quantity snapshot side q1)%Z ->
  best_first side snapshot q2 ->
  if String.eqb side "buy"
  then avg_price (execute snapshot side q1) <= avg_price (execute snapshot side q2)
  else avg_price (execute snapshot side q2) <= avg_price (execute snapshot side q1).
Proof.
  intros Hle Hf1 Hbest.
  destruct (filled_positive_Q _ _ _ Hf1) as [Hq1 HF1].
  assert (Hq2 : (0 <= q2)%Z) by lia.
  pose proof (avg_price_ratio snapshot side q1 Hq1) as E1.
  pose proof (avg_price_ratio snapshot side q2 Hq2) as E2.
  unfold best_first, consumed_side in *.
  destruct (String.eqb side "buy"); rewrite E1, E2; clear E1 E2.
  - destruct (fills_lower_bound (@price Q) (fills (asks snapshot) q2)) as [lo Hlo].
    destruct (incremental_weighted_sum (@price Q) (asks snapshot) lo q1 q2
                ltac:(lia) Hbest Hlo) as (hi & _ & H1 & H2 & H3).
    apply (ratio_monotone _ _ _ _ hi); try assumption.
    rewrite <- Zle_Qle. exact H3.
  - set (h := fun l : OrderBookLevel Q => - price l).
    destruct (fills_lower_bound h (fills (bids snapshot) q2)) as [lo Hlo].
    destruct (incremental_weighted_sum h (bids snapshot) lo q1 q2
                ltac:(lia) (decreasing_prices_opp _ Hbest) Hlo)
      as (hi & _ & H1 & H2 & H3).
    unfold h in H1, H2.
    rewrite (weighted_sum_opp (fills (bids snapshot) q1)) in H1.
    rewrite (weighted_sum_opp (fills (bids snapshot) q1)) in H2.
    rewrite (weighted_sum_opp (fills (bids snapshot) q2)) in H2.
    rewrite Zle_Qle in H3.
    assert (HF2 : 0 < inject_Z (fills_filled (fills (bids snapshot) q2))) by lra.
    pose proof (ratio_monotone
                  (- weighted_sum (@price Q) (fills (bids snapshot) q1))
                  (- weighted_sum (@price Q) (fills (bids snapshot) q2))
                  _ _ hi HF1 H3 H1) as R.
    assert (Hinc : hi * (inject_Z (fills_filled (fills (bids snapshot) q2))
                         - inject_Z (fills_filled (fills (bids snapshot) q1)))
                   <= - weighted_sum (@price Q) (fills (bids snapshot) q2)
                      - - weighted_sum (@price Q) (fills (bids snapshot) q1))
      by lra.
    specialize (R Hinc).
    assert (N1 : - weighted_sum (@price Q) (fills (bids snapshot) q1)
                 / inject_Z (fills_filled (fills (bids snapshot) q1))
                 == - (weighted_sum (@price Q) (fills (bids snapshot) q1)
                       / inject_Z (fills_filled (fills (bids snapshot) q1))))
      by (field; lra).
    assert (N2 : - weighted_sum (@price Q) (fills (bids snapshot) q2)
                 / inject_Z (fills_filled (fills (bids snapshot) q2))
                 == - (weighted_sum (@price Q) (fills (bids snapshot) q2)
                       / inject_Z (fills_filled (fills (bids snapshot) q2))))
      by (field; lra).
    rewrite N1, N2 in R. lra.
Qed.

Lemma impact_of_monotone (side : string) (avg1 avg2 mid : Q) :
  0 < mid ->
  (if String.eqb side "buy" then avg1 <= avg2 else avg2 <= avg1) ->
  impact_of side avg1 mid <= impact_of side avg2 mid.
Proof.
  intros Hmid H. unfold impact_of.
  destruct (String.eqb side "buy"); cbn [ddiv dsub Double_exact];
    unfold Qdiv; apply Qmult_le_compat_r;
    try (apply Qlt_le_weak, Qinv_lt_0_compat; exact Hmid); lra.
Qed.

Lemma contribution_monotone (snapshot : OrderBookSnapshot Q) (side : string)
    (q1 q2 : Z) :
  (q1 <= q2)%Z ->
  contributes side q1 snapshot = true ->
  best_first side snapshot q2 ->
  contribution side q1 snapshot <= contribution side q2 snapshot.
Proof.
  intros Hle Hc Hbest. unfold contributes in Hc.
  apply andb_true_iff in Hc as [Hmid Hf]. apply Z.ltb_lt in Hf.
  apply Qltb_lt in Hmid. change (@of_int Q Double_exact 0%Z) with 0 in Hmid.
  unfold contribution. apply impact_of_monotone; [exact Hmid|].
  now apply avg_price_monotone.
Qed.

(** X12. In exact arithmetic, on a side whose consumed prices are in
    best-first order, a larger order never gets a better average price than
    a smaller one: the VWAP of a buy does not decrease with the order size,
    the VWAP of a sell does not increase, and in both cases the impact does
    not decrease. *)
Theorem larger_order_no_better_price :
  forall (snapshot : OrderBookSnapshot Q) (side : string) (q1 q2 : Z),
    (q1 <= q2)%Z ->
    best_first side snapshot q2 ->
    forall impact1,
      snapshot_impact snapshot side q1 = Some impact1 ->
      exists impact2,
        snapshot_impact snapshot side q2 = Some impact2
        /\ impact1 <= impact2
        /\ (if String.eqb side "buy"
            then avg_price (execute snapshot side q1)
                 <= avg_price (execute snapshot side q2)
            else avg_price (execute snapshot side q2)
                 <= avg_price (execute snapshot side q1)).
Proof.
  intros snapshot side q1 q2 Hle Hbest impact1 H1.
  rewrite snapshot_impact_contributes in H1.
  destruct (contributes side q1 snapshot) eqn:Hc1; [|discriminate].
  injection H1 as <-.
  assert (Hq1 : (0 < q1)%Z).
  { unfold contributes in Hc1. apply andb_true_iff in Hc1 as [_ Hf].
    apply Z.ltb_lt in Hf. rewrite filled_quantity_closed_form in Hf. lia. }
  assert (Hc2 : contributes side q2 snapshot = true).
  { rewrite (contributes_any_size side q2) by lia.
    now rewrite <- (contributes_any_size side q1) by lia. }
  exists (contribution side q2 snapshot). split.
  - rewrite snapshot_impact_contributes, Hc2. reflexivity.
  - split.
    + now apply contribution_monotone.
    + apply avg_price_monotone; try assumption.
      unfold contributes in Hc1. apply andb_true_iff in Hc1 as [_ Hf].
      now apply Z.ltb_lt in Hf.
Qed.

Lemma fold_sum_monotone {A : Type} (f h : A -> Q) (xs : list A) :
  (forall x, In x xs -> f x <= h x) ->
  forall a b, a <= b ->
    fold_left Qplus (map f xs) a <= fold_left Qplus (map h xs) b.
Proof.
  induction xs as [|x xs IH]; intros H a b Hab; simpl; [exact Hab|].
  apply IH; [intros y Hy; apply H; now right|].
  specialize (H x (or_introl eq_refl)). lra.
Qed.

Lemma mean_monotone {A : Type} (f h : A -> Q) (xs : list A) :
  (forall x, In x xs -> f x <= h x) ->
  mean (map f xs) <= mean (map h xs).
Proof.
  intros H. unfold mean. rewrite !length_map.
  cbn [ddiv dadd of_int Double_exact]. unfold Qdiv.
  apply Qmult_le_compat_r.
  - apply fold_sum_monotone; [exact H | apply Qle_refl].
  - apply Qinv_le_0_compat. change 0 with (inject_Z 0).
    rewrite <- Zle_Qle. lia.
Qed.

Lemma sample_in_curve (snapshots : list (OrderBookSnapshot Q)) (side : string)
    (max_shares : Z) (r : ImpactResult Q) :
  In r (calculateTemporaryImpact snapshots side max_shares) ->
  (0 < order_size r)%Z
  /\ avg_impact r = mean (accumulated_impacts snapshots side (order_size r))
  /\ impact_bps r = (avg_impact r * of_int 10000)%D.
Proof.
  rewrite calculateTemporaryImpact_spec. intros H.
  apply in_flat_map in H as (os & Hos & Hr).
  apply requested_sizes_positive in Hos.
  unfold samples_at in Hr.
  destruct (accumulated_impacts snapshots side os) as [|x xs] eqn:E;
    [contradiction|].
  destruct Hr as [<- | []]. cbn [order_size avg_impact impact_bps].
  rewrite E. repeat split. exact Hos.
Qed.

(** X13. In exact arithmetic, when every snapshot has its consumed side in
    best-first order, the impact curve does not decrease with the order
    size: of two samples, the one with the larger order size has the larger
    or equal average impact, in fraction and in basis points. *)
Theorem impact_curve_nondecreasing :
  forall (snapshots : list (OrderBookSnapshot Q)) (side : string) (max_shares : Z),
    (forall s q, In s snapshots -> best_first side s q) ->
    forall r1 r2,
      In r1 (calculateTemporaryImpact snapshots side max_shares) ->
      In r2 (calculateTemporaryImpact snapshots side max_shares) ->
      (order_size r1 <= order_size r2)%Z ->
      avg_impact r1 <= avg_impact r2 /\ impact_bps r1 <= impact_bps r2.
Proof.
  intros snapshots side max_shares Hbest r1 r2 H1 H2 Hle.
  destruct (sample_in_curve _ _ _ _ H1) as (Hp1 & Ha1 & Hb1).
  destruct (sample_in_curve _ _ _ _ H2) as (Hp2 & Ha2 & Hb2).
  assert (Havg : avg_impact r1 <= avg_impact r2).
  { rewrite Ha1, Ha2. unfold accumulated_impacts.
    rewrite (contributors_any_size snapshots side (order_size r2) (order_size r1))
      by assumption.
    apply mean_monotone. intros s Hs. apply filter_In in Hs as [Hs Hc].
    apply contribution_monotone; auto. }
  split; [exact Havg|].
  rewrite Hb1, Hb2. cbn [dmul of_int Double_exact].
  apply Qmult_le_compat_r; [exact Havg | discriminate].
Qed.

End ExactCurve.

(** ** Validity of the levels consumed, in binary64 *)

Lemma binary64_number_test (x : float) :
  PrimFloat.eqb x x = true ->
  PrimFloat.leb x 0 = negb (PrimFloat.ltb 0 x).
Proof.
  rewrite FloatAxioms.eqb_spec, FloatAxioms.leb_spec, FloatAxioms.ltb_spec.
  change (Prim2SF 0) with (S754_zero false).
  intros Hx. apply not_nan_test. intros E. rewrite E in Hx. discriminate Hx.
Qed.

(** The walk at the level [l] that follows the levels [pre]: either the
    loop has ended by then (it stopped inside [pre], or it stops at [l]) and
    its result is the state after [pre], or it takes
    [min(remaining, l.size)] shares from [l], which passed both tests, and
    goes on with the levels after [l]. *)
Lemma consume_at_level {D : Type} {DD : Double D}
    (l : OrderBookLevel D) (post : list (OrderBookLevel D)) :
  forall (pre : list (OrderBookLevel D)) (st : walk_state D),
    let before := consume pre st in
    let take := Z.min (remaining before) (size l) in
    let after := {| total_cost := (total_cost before + of_int take * price l)%D;
                    total_shares := total_shares before + take;
                    remaining := remaining before - take |} in
    (consume (pre ++ [l]) st = before
     /\ consume (pre ++ l :: post) st = before)
    \/ (0 < remaining before
        /\ (price l <=? of_int 0)%D = false /\ 0 < size l
        /\ consume (pre ++ [l]) st = after
        /\ consume (pre ++ l :: post) st = consume post after).
Proof.
  induction pre as [|x pre IH]; intros st.
  - cbn [app consume].
    destruct (remaining st <=? 0) eqn:Er; cbn [orb]; [left; split; reflexivity|].
    destruct (price l <=? of_int 0)%D eqn:Ep; cbn [orb]; [left; split; reflexivity|].
    destruct (size l <=? 0) eqn:Es; [left; split; reflexivity|].
    right. apply Z.leb_gt in Er, Es. repeat split; assumption || reflexivity.
  - cbn [app consume].
    destruct ((remaining st <=? 0) || (price x <=? of_int 0)%D || (size x <=? 0)).
    + left. split; reflexivity.
    + apply IH.
Qed.

(** X14. In binary64, the walk takes shares only from valid levels: at a
    level whose price is not a NaN, either the walk takes nothing, and then
    it has ended and its result is the state it had before that level, or
    the level is valid in the sense of [OrderBookLevel::isValid] (positive
    price and positive size) and the walk takes from it at least one share
    and at most its size and at most what remained of the order, and goes on
    with the levels after it. *)
Theorem consumed_levels_are_valid :
  forall (pre post : list (OrderBookLevel float)) (l : OrderBookLevel float)
         (st : walk_state float),
    PrimFloat.eqb (price l) (price l) = true ->
    let before := consume pre st in
    let after := consume (pre ++ [l]) st in
    let taken := total_shares after - total_shares before in
    (taken = 0 /\ after = before /\ consume (pre ++ l :: post) st = before)
    \/ (OrderBookLevel_isValid l = true
        /\ 1 <= taken <= size l /\ taken <= remaining before
        /\ total_cost after = (total_cost before + of_int taken * price l)%D
        /\ remaining after = remaining before - taken
        /\ consume (pre ++ l :: post) st = consume post after).
Proof.
  intros pre post l st Hnum. cbv zeta.
  destruct (consume_at_level l post pre st)
    as [[E1 E2] | (Hr & Hp & Hs & E1 & E2)].
  - left. rewrite E1. repeat split; [lia | exact E2].
  - right. rewrite E1. cbn [total_shares total_cost remaining].
    replace (total_shares (consume pre st)
             + Z.min (remaining (consume pre st)) (size l)
             - total_shares (consume pre st))
      with (Z.min (remaining (consume pre st)) (size l)) by lia.
    repeat split; try lia; try exact E2.
    unfold OrderBookLevel_isValid. apply andb_true_iff. split.
    + pose proof (binary64_number_test _ Hnum) as E.
      change (price l <=? of_int 0)%D with (PrimFloat.leb (price l) 0) in Hp.
      rewrite Hp in E. symmetry in E. apply negb_false_iff in E. exact E.
    + apply Z.ltb_lt. lia.
Qed.

(** A NaN price passes the test [price <= 0] of the walk: the level is
    taken from although it is not valid. *)
Example nan_price_is_consumed :
  total_shares
    (consume [level64 PrimFloat.nan 5]
       {| total_cost := of_int 0; total_shares := 0; remaining := 10 |}) = 5
  /\ OrderBookLevel_isValid (level64 PrimFloat.nan 5) = false.
Proof. split; vm_compute; reflexivity. Qed.

(** ** Order of the snapshots, in exact arithmetic *)

From Stdlib Require Import Permutation.

(** Two curves agree: same order sizes, equal impacts as rationals. *)
Definition same_curve (c1 c2 : list (ImpactResult Q)) : Prop :=
  Forall2 (fun r1 r2 =>
             order_size r1 = order_size r2
             /\ (avg_impact r1 == avg_impact r2)%Q
             /\ (impact_bps r1 == impact_bps r2)%Q) c1 c2.

Section ExactOrder.

Open Scope Q_scope.

Lemma fold_sum_Qeq (xs : list Q) :
  forall a b, a == b -> fold_left Qplus xs a == fold_left Qplus xs b.
Proof.
  induction xs as [|x xs IH]; intros a b Hab; simpl; [exact Hab|].
  apply IH. now rewrite Hab.
Qed.

Lemma fold_sum_permutation (xs ys : list Q) :
  Permutation xs ys ->
  forall a, fold_left Qplus xs a == fold_left Qplus ys a.
Proof.
  induction 1 as [|x xs ys _ IH|x y xs|xs ys zs _ IH1 _ IH2]; intros a; simpl.
  - reflexivity.
  - apply IH.
  - apply fold_sum_Qeq. ring.
  - now rewrite IH1.
Qed.

Lemma filter_permutation {A : Type} (f : A -> bool) (xs ys : list A) :
  Permutation xs ys -> Permutation (filter f xs) (filter f ys).
Proof.
  induction 1 as [|x xs ys _ IH|x y xs|xs ys zs _ IH1 _ IH2]; simpl.
  - constructor.
  - destruct (f x); [now constructor | exact IH].
  - destruct (f x), (f y); try reflexivity. constructor.
  - now transitivity (filter f ys).
Qed.

Lemma mean_permutation (xs ys : list Q) :
  Permutation xs ys -> mean xs == mean ys.
Proof.
  intros H. unfold mean. rewrite (Permutation_length H).
  cbn [ddiv dadd of_int Double_exact].
  now rewrite (fold_sum_permutation xs ys H).
Qed.

Lemma samples_at_permutation (s1 s2 : list (OrderBookSnapshot Q))
    (side : string) (os : Z) :
  Permutation s1 s2 ->
  same_curve (samples_at s1 side os) (samples_at s2 side os).
Proof.
  intros H.
  assert (HP : Permutation (accumulated_impacts s1 side os)
                 (accumulated_impacts s2 side os)).
  { unfold accumulated_impacts. apply Permutation_map.
    now apply filter_permutation. }
  unfold samples_at.
  destruct (accumulated_impacts s1 side os) as [|x xs] eqn:E1;
    destruct (accumulated_impacts s2 side os) as [|y ys] eqn:E2.
  - constructor.
  - apply Permutation_nil in HP. discriminate.
  - apply Permutation_sym, Permutation_nil in HP. discriminate.
  - constructor; [|constructor]. cbn [order_size avg_impact impact_bps].
    pose proof (mean_permutation _ _ HP) as Hm.
    split; [reflexivity|]. split; [exact Hm|].
    cbn [dmul Double_exact]. now rewrite Hm.
Qed.

(** X15. In exact arithmetic the curve does not depend on the order in
    which the snapshots are stored: two collections that are permutations
    of each other give the same order sizes and equal impacts. *)
Theorem curve_independent_of_snapshot_order :
  forall (s1 s2 : list (OrderBookSnapshot Q)) (side : string) (max_shares : Z),
    Permutation s1 s2 ->
    same_curve (calculateTemporaryImpact s1 side max_shares)
               (calculateTemporaryImpact s2 side max_shares).
Proof.
  intros s1 s2 side max_shares H.
  rewrite !calculateTemporaryImpact_spec.
  induction (requested_sizes max_shares) as [|os sizes IH]; simpl.
  - constructor.
  - apply Forall2_app; [now apply samples_at_permutation | exact IH].
Qed.

End ExactOrder.

(** ** [analyzeSymbol]: the statistics of a symbol *)

Section Statistics.

Context {D : Type} {DD : Double D}.

(** The five accumulators of lines 407-409. *)
Record statistics : Type := mkStatistics {
  total_mid : D;
  total_spread : D;
  total_bid_depth : Z;
  total_ask_depth : Z;
  valid_snapshots : Z
}.

(** The body of the loop of lines 411-420; the two depth accumulators are
    [int]s and wrap around. *)
Definition statistics_step (st : statistics) (snapshot : OrderBookSnapshot D)
  : statistics :=
  let mid := getMidPrice snapshot in
  if (of_int 0 <? mid)%D then
    {| total_mid := (total_mid st + mid)%D;
       total_spread := (total_spread st + getSpread snapshot)%D;
       total_bid_depth := int_wrap (total_bid_depth st + getTotalBidDepth snapshot);
       total_ask_depth := int_wrap (total_ask_depth st + getTotalAskDepth snapshot);
       valid_snapshots := valid_snapshots st + 1 |}
  else st.

Definition statistics_of (snapshots : list (OrderBookSnapshot D)) : statistics :=
  fold_left statistics_step snapshots
    {| total_mid := of_int 0; total_spread := of_int 0;
       total_bid_depth := 0; total_ask_depth := 0; valid_snapshots := 0 |}.

(** What lines 422-428 print: average mid-price, average spread in basis
    points, average bid depth and average ask depth (integer divisions);
    nothing when no snapshot was valid. *)
Definition reported_statistics (st : statistics) : option (D * D * Z * Z) :=
  if 0 <? valid_snapshots st then
    Some ((total_mid st / of_int (valid_snapshots st))%D,
          (total_spread st / total_mid st * of_int 10000
           / of_int (valid_snapshots st))%D,
          Z.quot (total_bid_depth st) (valid_snapshots st),
          Z.quot (total_ask_depth st) (valid_snapshots st))
  else None.

(** [total += depth] on an [int], repeated. *)
Definition add_int (total depth : Z) : Z := int_wrap (total + depth).

Lemma statistics_fold (snapshots : list (OrderBookSnapshot D)) :
  forall st,
    let valid := filter OrderBookSnapshot_isValid snapshots in
    fold_left statistics_step snapshots st
    = {| total_mid := fold_left dadd (map getMidPrice valid) (total_mid st);
         total_spread := fold_left dadd (map getSpread valid) (total_spread st);
         total_bid_depth :=
           fold_left add_int (map getTotalBidDepth valid) (total_bid_depth st);
         total_ask_depth :=
           fold_left add_int (map getTotalAskDepth valid) (total_ask_depth st);
         valid_snapshots := valid_snapshots st + Z.of_nat (List.length valid) |}.
Proof.
  induction snapshots as [|s snapshots IH]; intros st; cbn [fold_left filter].
  - cbn [map fold_left List.length]. destruct st; cbn. f_equal. lia.
  - assert (Ev : OrderBookSnapshot_isValid s = (of_int 0 <? getMidPrice s)%D)
      by reflexivity.
    rewrite IH, Ev. unfold statistics_step.
    destruct (of_int 0 <? getMidPrice s)%D.
    + cbn [map fold_left List.length total_mid total_spread total_bid_depth
           total_ask_depth valid_snapshots].
      f_equal. lia.
    + reflexivity.
Qed.

(** An [int] accumulator holds the sum of what was added, modulo 2^32. *)
Lemma fold_add_int_wraps (xs : list Z) :
  forall a, fold_left add_int xs (int_wrap a) = int_wrap (fold_left Z.add xs a).
Proof.
  induction xs as [|x xs IH]; intros a; cbn [fold_left]; [reflexivity|].
  unfold add_int at 2. now rewrite int_wrap_add_l, IH.
Qed.

Lemma fold_add_nonneg (xs : list Z) :
  Forall (fun x => 0 <= x) xs ->
  forall a, 0 <= a -> 0 <= fold_left Z.add xs a.
Proof.
  induction 1 as [|x xs Hx _ IH]; intros a Ha; cbn [fold_left]; [exact Ha|].
  apply IH. lia.
Qed.

Lemma fold_add_int_exact (xs : list Z) :
  Forall (fun x => 0 <= x) xs ->
  fold_left Z.add xs 0 <= INT_MAX ->
  fold_left add_int xs 0 = fold_left Z.add xs 0.
Proof.
  intros Hpos Hsum. change 0 with (int_wrap 0) at 1.
  rewrite fold_add_int_wraps. apply int_wrap_in_range.
  pose proof (fold_add_nonneg xs Hpos 0 ltac:(lia)). unfold INT_MIN. lia.
Qed.

(** X16. The statistics of [analyzeSymbol] count and sum exactly the
    snapshots with a positive mid-price, in order; snapshots without one
    change nothing.  The two depth accumulators are [int]s: each holds the
    sum of the depths of those snapshots modulo 2^32, which is the sum
    itself when no depth is negative and the sum is at most [INT_MAX].  The
    averages are printed exactly when at least one snapshot has a positive
    mid-price, so that no average is divided by a zero count. *)
Theorem statistics_cover_valid_snapshots :
  forall (snapshots : list (OrderBookSnapshot D)),
    let valid := filter OrderBookSnapshot_isValid snapshots in
    let bid_depths := map getTotalBidDepth valid in
    let ask_depths := map getTotalAskDepth valid in
    statistics_of snapshots = statistics_of valid
    /\ valid_snapshots (statistics_of snapshots) = Z.of_nat (List.length valid)
    /\ total_mid (statistics_of snapshots)
       = fold_left dadd (map getMidPrice valid) (of_int 0)
    /\ total_spread (statistics_of snapshots)
       = fold_left dadd (map getSpread valid) (of_int 0)
    /\ total_bid_depth (statistics_of snapshots)
       = int_wrap (fold_left Z.add bid_depths 0)
    /\ total_ask_depth (statistics_of snapshots)
       = int_wrap (fold_left Z.add ask_depths 0)
    /\ (Forall (fun d => 0 <= d) bid_depths ->
        fold_left Z.add bid_depths 0 <= INT_MAX ->
        total_bid_depth (statistics_of snapshots) = fold_left Z.add bid_depths 0)
    /\ (Forall (fun d => 0 <= d) ask_depths ->
        fold_left Z.add ask_depths 0 <= INT_MAX ->
        total_ask_depth (statistics_of snapshots) = fold_left Z.add ask_depths 0)
    /\ (reported_statistics (statistics_of snapshots) = None <-> valid = []).
Proof.
  intros snapshots valid bid_depths ask_depths.
  subst valid bid_depths ask_depths. unfold statistics_of.
  rewrite !statistics_fold. cbn [total_mid total_spread total_bid_depth
    total_ask_depth valid_snapshots].
  split.
  - assert (E : filter OrderBookSnapshot_isValid
                  (filter OrderBookSnapshot_isValid snapshots)
                = filter OrderBookSnapshot_isValid snapshots).
    { induction snapshots as [|s l IH]; simpl; [reflexivity|].
      destruct (OrderBookSnapshot_isValid s) eqn:E; simpl; [|exact IH].
      now rewrite E, IH. }
    now rewrite E.
  - split; [reflexivity|]. split; [reflexivity|]. split; [reflexivity|].
    split; [exact (fold_add_int_wraps _ 0)|].
    split; [exact (fold_add_int_wraps _ 0)|].
    split; [apply fold_add_int_exact|].
    split; [apply fold_add_int_exact|].
    split.
    + unfold reported_statistics. cbn [valid_snapshots].
      destruct (filter OrderBookSnapshot_isValid snapshots); [reflexivity|].
      cbn [List.length]. intros H.
      replace (0 <? 0 + Z.of_nat (S (List.length l))) with true in H
        by (symmetry; apply Z.ltb_lt; lia).
      discriminate.
    + intros ->. reflexivity.
Qed.

End Statistics.

Arguments statistics D : clear implicits.

Section ExactStatistics.

Open Scope Q_scope.

Lemma fold_sum_repeat (x : Q) (n : nat) :
  forall a, fold_left Qplus (repeat x n) a == a + inject_Z (Z.of_nat n) * x.
Proof.
  induction n as [|n IH]; intros a.
  - simpl. change (inject_Z 0) with 0. ring.
  - cbn [repeat fold_left]. rewrite IH, Nat2Z.inj_succ.
    unfold Z.succ. rewrite inject_Z_plus. change (inject_Z 1) with 1. ring.
Qed.

Lemma filter_repeat_true {A : Type} (f : A -> bool) (x : A) (n : nat) :
  f x = true -> filter f (repeat x n) = repeat x n.
Proof.
  intros H. induction n as [|n IH]; simpl; [reflexivity|]. now rewrite H, IH.
Qed.

(** X17. In exact arithmetic, the average spread that [analyzeSymbol]
    reports is divided by the number of valid snapshots once too often: for
    [n] copies of one snapshot with a positive mid-price the reported
    mid-price is that snapshot's, but the reported spread is its relative
    spread in basis points divided by [n]. *)
Theorem reported_spread_divided_by_count :
  forall (s : OrderBookSnapshot Q) (n : nat),
    0 < getMidPrice s -> (0 < n)%nat ->
    exists avg_mid avg_spread bid_depth ask_depth,
      reported_statistics (statistics_of (repeat s n))
      = Some (avg_mid, avg_spread, bid_depth, ask_depth)
      /\ avg_mid == getMidPrice s
      /\ avg_spread
         == getSpread s / getMidPrice s * 10000 / inject_Z (Z.of_nat n).
Proof.
  intros s n Hmid Hn.
  assert (Hv : OrderBookSnapshot_isValid s = true)
    by (unfold OrderBookSnapshot_isValid; now apply Qltb_lt).
  unfold statistics_of. rewrite statistics_fold.
  rewrite (filter_repeat_true _ s n Hv), !map_repeat, repeat_length.
  unfold reported_statistics.
  cbn [valid_snapshots total_mid total_spread total_bid_depth total_ask_depth].
  replace (0 <? 0 + Z.of_nat n)%Z with true by (symmetry; apply Z.ltb_lt; lia).
  eexists _, _, _, _. split; [reflexivity|].
  assert (Hnq : 0 < inject_Z (Z.of_nat n)).
  { change 0 with (inject_Z 0). rewrite <- Zlt_Qlt. lia. }
  cbn [ddiv dmul dadd of_int Double_exact].
  replace (0 + Z.of_nat n)%Z with (Z.of_nat n) by lia.
  rewrite !fold_sum_repeat.
  change (inject_Z 0) with 0. change (inject_Z 10000) with 10000.
  split.
  - field. lra.
  - field. split; lra.
Qed.

End ExactStatistics.

(** ** Orders beyond the depth *)

Section Saturation.

Context {D : Type} {DD : Double D}.

Lemma fills_beyond_depth (levels : list (OrderBookLevel D)) :
  forall q, valid_depth levels <= q ->
            fills levels q = fills levels (valid_depth levels).
Proof.
  induction levels as [|l rest IH]; intros q Hq; [reflexivity|].
  cbn [fills valid_depth] in *.
  pose proof (valid_depth_nonneg rest) as Hrest.
  destruct ((price l <=? of_int 0)%D || (size l <=? 0)) eqn:E.
  - now rewrite !orb_true_r.
  - rewrite !orb_false_r.
    apply orb_false_elim in E as [_ Hs]. apply Z.leb_gt in Hs.
    replace (q =? 0) with false by (symmetry; apply Z.eqb_neq; lia).
    replace (size l + valid_depth rest =? 0) with false
      by (symmetry; apply Z.eqb_neq; lia).
    rewrite (Z.min_r q (size l)), (Z.min_r (size l + valid_depth rest) (size l))
      by lia.
    replace (size l + valid_depth rest - size l) with (valid_depth rest) by lia.
    now rewrite (IH (q - size l)) by lia.
Qed.

Lemma impact_beyond_depth (snapshot : OrderBookSnapshot D) (side : string)
    (q1 q2 : Z) :
  valid_depth (consumed_side snapshot side) <= q1 ->
  valid_depth (consumed_side snapshot side) <= q2 ->
  simulate snapshot side q1 = simulate snapshot side q2
  /\ snapshot_impact snapshot side q1 = snapshot_impact snapshot side q2.
Proof.
  intros H1 H2.
  pose proof (valid_depth_nonneg (consumed_side snapshot side)) as Hd.
  assert (E : simulate snapshot side q1 = simulate snapshot side q2).
  { rewrite !simulate_spec by lia. unfold spec_simulate.
    now rewrite (fills_beyond_depth _ q1 H1), (fills_beyond_depth _ q2 H2). }
  split; [exact E|]. unfold snapshot_impact. now rewrite E.
Qed.

(** X18. The impact saturates: once the order size reaches the depth before
    the first invalid level, the simulator fills the same shares at the
    same prices whatever the size, so the filled quantity, the VWAP and the
    impact of a snapshot no longer change; and two order sizes that reach
    the depth of every snapshot accumulate the same impacts. *)
Theorem impact_saturates_beyond_depth :
  forall (snapshots : list (OrderBookSnapshot D)) (side : string) (q1 q2 : Z),
    (forall s, In s snapshots ->
       valid_depth (consumed_side s side) <= q1
       /\ valid_depth (consumed_side s side) <= q2) ->
    (forall s, In s snapshots ->
       simulate s side q1 = simulate s side q2
       /\ snapshot_impact s side q1 = snapshot_impact s side q2)
    /\ collect_impacts snapshots side q1 = collect_impacts snapshots side q2.
Proof.
  intros snapshots side q1 q2 H. split.
  - intros s Hs. destruct (H s Hs). now apply impact_beyond_depth.
  - unfold collect_impacts. generalize (@nil D).
    induction snapshots as [|s snapshots IH]; intros acc; [reflexivity|].
    cbn [fold_left]. unfold snapshot_step at 2 4.
    destruct (H s (or_introl eq_refl)) as [H1 H2].
    rewrite (proj2 (impact_beyond_depth s side q1 q2 H1 H2)).
    apply IH. intros x Hx. apply H. now right.
Qed.

End Saturation.

(** ** Concrete checks of the further properties *)

Lemma consumed_prices_sorted {D : Type} {DD : Double D} (R : D -> D -> Prop)
    (levels : list (OrderBookLevel D)) :
  StronglySorted R (map (@price D) levels) ->
  forall q, StronglySorted R (consumed_prices levels q)
            /\ incl (consumed_prices levels q) (map (@price D) levels).
Proof.
  unfold consumed_prices.
  induction levels as [|l rest IH]; intros Hs q; cbn [fills map].
  - split; [constructor | apply incl_refl].
  - inversion Hs as [|? ? Hs' Hh]; subst.
    destruct ((q =? 0) || ((price l <=? of_int 0)%D || (size l <=? 0))).
    + split; [constructor | intros x []].
    + cbn [map snd].
      destruct (IH Hs' (q - Z.min q (size l))) as [IH1 IH2].
      split.
      * constructor; [exact IH1|].
        rewrite Forall_forall in *. intros x Hx. apply Hh. now apply IH2.
      * intros x [<- | Hx]; [now left | right; now apply IH2].
Qed.

Definition row_unconvertible : string :=
  "ts,,,,,,,,,,,,,99.5,100.5,5,7,,,abc,100.75,3,4,,,,,,,,,,,,,,,,,,,,,,,,,,,,,,,,,,,,,,,,,,,,,,,,,,,SYM".

Definition folder : list dir_entry :=
  [ mkEntry "notes.txt" ".txt" (Some ["not a table"]);
    mkEntry "CRWV_2025-07-01 00:00:00+00:00.csv" ".csv" None;
    mkEntry "CRWV_2025-07-01 00:00:00+00:00.csv" ".csv"
      (Some ["ts_event,header"; row_unconvertible; row_depth_two]) ].

Lemma folder_loads_one_row :
  load_files (D := float) decimal_stod decimal_stoi folder 3 0 []
  = [snapshot_depth_two].
Proof. vm_compute. reflexivity. Qed.

Lemma folder_within_bound :
  Z.of_nat (List.length
              (load_files (D := float) decimal_stod decimal_stoi folder 3 0 []))
  <= 3 * 10000.
Proof.
  apply (proj1 (proj2 (load_files_reads_first_csv_files
                         (D := float) decimal_stod decimal_stoi folder 3))).
  lia.
Defined.

Lemma folder_snapshot_has_best_prices :
  exists b bs a as',
    bids snapshot_depth_two = b :: bs /\ asks snapshot_depth_two = a :: as'
    /\ (of_int 0 <? price b)%D = true /\ (of_int 0 <? price a)%D = true
    /\ getMidPrice snapshot_depth_two = ((price b + price a) / of_int 2)%D
    /\ getSpread snapshot_depth_two = (price a - price b)%D
    /\ exists entry,
         In entry folder /\ entry_extension entry = ".csv"
         /\ date snapshot_depth_two = file_date (entry_filename entry).
Proof.
  apply (loaded_snapshots_have_best_prices (D := float) decimal_stod decimal_stoi
           folder 3 snapshot_depth_two).
  rewrite folder_loads_one_row. left. reflexivity.
Defined.

Lemma depth_two_second_bid_converted :
  decimal_stod "99.25"
  = Some (price (nth 1 (bids snapshot_depth_two) empty_level)).
Proof.
  apply (kept_row_holds_converted_fields (D := float) decimal_stod decimal_stoi
           "2025-07-01" row_depth_two snapshot_depth_two parse_row_depth_two
           1%nat "99.25").
  - lia.
  - vm_compute. reflexivity.
Defined.

Lemma unconvertible_row_skipped :
  parse_row (D := float) decimal_stod decimal_stoi "2025-07-01" row_unconvertible
  = None.
Proof.
  apply (proj2 (unconvertible_row_is_skipped (D := float) decimal_stod decimal_stoi
                  "2025-07-01" row_unconvertible) 1%nat "abc").
  - lia.
  - left. split; vm_compute; reflexivity.
Defined.

Lemma placeholders_do_not_change_the_walk :
  consume ([level64 100.5 7; level64 100.75 4] ++ repeat empty_level 8)
    {| total_cost := of_int 0; total_shares := 0; remaining := 10 |}
  = consume [level64 100.5 7; level64 100.75 4]
      {| total_cost := of_int 0; total_shares := 0; remaining := 10 |}.
Proof.
  apply (proj2 (levels_after_invalid_are_ignored (D := float))).
Defined.

Lemma scenario_fill_of_20 :
  total_shares (execute scenario "buy" 20) = 10
  /\ remaining (execute scenario "buy" 20) = 10.
Proof.
  destruct (fill_is_order_or_valid_depth scenario "buy" 20 ltac:(lia))
    as (H1 & H2 & _ & _).
  rewrite H2, H1. split; reflexivity.
Defined.

Lemma scenario_curve_is_full :
  exists curve,
    calculateTemporaryImpact_returns [scenario] "buy" 30 curve
    /\ (map (@order_size float) curve = requested_sizes 30 \/ curve = []).
Proof.
  apply (proj2 (curve_is_full_or_empty [scenario] "buy" 30)). lia.
Defined.

Lemma scenario_curve_extends :
  exists curve more,
    calculateTemporaryImpact_returns [scenario] "buy" 20 curve
    /\ calculateTemporaryImpact_returns [scenario] "buy" 30 (curve ++ more).
Proof.
  apply (larger_max_shares_extends_curve [scenario] "buy" 20 30); lia.
Defined.

Lemma scenarioQ_best_level_impact :
  exists impact,
    snapshot_impact scenarioQ "buy" 5 = Some impact
    /\ (impact == getSpread scenarioQ / (2 * getMidPrice scenarioQ))%Q.
Proof.
  apply (proj1 (impact_within_best_level_is_half_spread scenarioQ
                  (levelQ 100 5) (levelQ 100 5) [levelQ 99.95 5] [levelQ 100.05 5]
                  5 eq_refl eq_refl eq_refl eq_refl eq_refl)).
  simpl. lia.
Defined.

Lemma scenarioQ_best_first (side : string) (q : Z) :
  best_first side scenarioQ q.
Proof.
  unfold best_first. destruct (String.eqb side "buy").
  - apply (consumed_prices_sorted Qle (asks scenarioQ)).
    repeat constructor; discriminate.
  - apply (consumed_prices_sorted (fun x y => (y <= x)%Q) (bids scenarioQ)).
    repeat constructor; discriminate.
Qed.

Lemma scenarioQ_larger_order_no_better :
  exists impact2,
    snapshot_impact scenarioQ "buy" 10 = Some impact2
    /\ (60 # 320000 <= impact2)%Q
    /\ (if String.eqb "buy" "buy"
        then (avg_price (execute scenarioQ "buy" 8)
              <= avg_price (execute scenarioQ "buy" 10))%Q
        else (avg_price (execute scenarioQ "buy" 10)
              <= avg_price (execute scenarioQ "buy" 8))%Q).
Proof.
  apply (larger_order_no_better_price scenarioQ "buy" 8 10).
  - lia.
  - apply scenarioQ_best_first.
  - vm_compute. reflexivity.
Defined.

Definition no_sample : ImpactResult Q :=
  {| order_size := 0; avg_impact := 0%Q; impact_bps := 0%Q |}.

Lemma scenarioQ_curve_nondecreasing :
  let curve := calculateTemporaryImpact [scenarioQ] "sell" 30 in
  (avg_impact (nth 0 curve no_sample) <= avg_impact (nth 2 curve no_sample))%Q
  /\ (impact_bps (nth 0 curve no_sample) <= impact_bps (nth 2 curve no_sample))%Q.
Proof.
  apply (impact_curve_nondecreasing [scenarioQ] "sell" 30).
  - intros s q [<- | []]. apply scenarioQ_best_first.
  - vm_compute. left. reflexivity.
  - vm_compute. right. right. left. reflexivity.
  - vm_compute. discriminate.
Defined.

(** A buy of 8 on [scenario] at the second ask level, after 5 shares were
    taken from the first. *)
Lemma scenario_consumed_levels_valid :
  let st := {| total_cost := of_int 0; total_shares := 0; remaining := 8 |} in
  let pre := [level64 100 5] in
  let l := level64 100.05 5 in
  let taken := total_shares (consume (pre ++ [l]) st)
               - total_shares (consume pre st) in
  (taken = 0 /\ consume (pre ++ [l]) st = consume pre st
   /\ consume (pre ++ l :: []) st = consume pre st)
  \/ (OrderBookLevel_isValid l = true
      /\ 1 <= taken <= size l /\ taken <= remaining (consume pre st)
      /\ total_cost (consume (pre ++ [l]) st)
         = (total_cost (consume pre st) + of_int taken * price l)%D
      /\ remaining (consume (pre ++ [l]) st)
         = remaining (consume pre st) - taken
      /\ consume (pre ++ l :: []) st = consume [] (consume (pre ++ [l]) st)).
Proof.
  apply (consumed_levels_are_valid [level64 100 5] [] (level64 100.05 5)
           {| total_cost := of_int 0; total_shares := 0; remaining := 8 |}).
  reflexivity.
Defined.

(** Two copies of [scenario]: both depth accumulators hold the exact sums. *)
Lemma scenario_statistics_depths :
  total_bid_depth (statistics_of [scenario; scenario]) = 20
  /\ total_ask_depth (statistics_of [scenario; scenario]) = 20.
Proof.
  pose proof (statistics_cover_valid_snapshots [scenario; scenario]) as T.
  cbv zeta in T.
  destruct T as (_ & _ & _ & _ & _ & _ & Hb & Ha & _).
  split.
  - rewrite Hb; [reflexivity | repeat constructor; vm_compute; discriminate
                 | vm_compute; discriminate].
  - rewrite Ha; [reflexivity | repeat constructor; vm_compute; discriminate
                 | vm_compute; discriminate].
Defined.

Lemma scenarioQ_order_irrelevant :
  same_curve
    (calculateTemporaryImpact
       [scenarioQ; {| timestamp := "t1"; date := "2025-07-01";
                      bids := [levelQ 99 5]; asks := [levelQ 101 5] |}] "buy" 20)
    (calculateTemporaryImpact
       [{| timestamp := "t1"; date := "2025-07-01";
           bids := [levelQ 99 5]; asks := [levelQ 101 5] |}; scenarioQ] "buy" 20).
Proof.
  apply curve_independent_of_snapshot_order. apply perm_swap.
Defined.

Lemma scenarioQ_three_copies_spread :
  exists avg_mid avg_spread bid_depth ask_depth,
    reported_statistics (statistics_of (repeat scenarioQ 3))
    = Some (avg_mid, avg_spread, bid_depth, ask_depth)
    /\ (avg_mid == getMidPrice scenarioQ)%Q
    /\ (avg_spread
        == getSpread scenarioQ / getMidPrice scenarioQ * 10000
           / inject_Z (Z.of_nat 3))%Q.
Proof.
  apply (reported_spread_divided_by_count scenarioQ 3).
  - reflexivity.
  - lia.
Defined.

Lemma scenario_saturates_at_depth :
  collect_impacts [scenario] "buy" 10 = collect_impacts [scenario] "buy" 20.
Proof.
  assert (H : forall s, In s [scenario] ->
                valid_depth (consumed_side s "buy") <= 10
                /\ valid_depth (consumed_side s "buy") <= 20).
  { intros s [<- | []]. split; vm_compute; discriminate. }
  exact (proj2 (impact_saturates_beyond_depth [scenario] "buy" 10 20 H)).
Defined.
